(** * Theme scripts (js/script.js): a shallow embedding and its properties

  The script is a collection of independent UI controllers that react to
  browser events.  Each controller is embedded in a module of its own,
  over the part of the page and of the browser environment it touches:

  - [DOMTokenList]  the [classList] operations every controller uses;
  - [Js]            computations that mutate a state and may throw;
  - [ThemeManager]  theme classes on the root, the stored preference and
                    the three selector buttons;
  - [MobileMenu]    the navigation toggle;
  - [BackToTop]     the floating control and [getScrollTop];
  - [LazyLoader]    background images and the animation-frame queue;
  - [SmoothScroll]  the click handler for same-page anchors;
  - [CodeCopy]      the copy button, the clipboard promise and timers.

  The first part of the file holds the embedding, the second part the
  properties, one module of facts per controller. *)

From stdpp Require Import gmap strings list.
From Stdlib Require Import QArith.

Local Open Scope string_scope.
Local Open Scope list_scope.

(** ** classList

  A [DOMTokenList] is an ordered set of tokens: [add] appends a token
  that is not there yet, [remove] drops it, [toggle] flips it. *)

Module DOMTokenList.

Definition contains (c : string) (l : list string) : bool :=
  bool_decide (c ∈ l).

Definition add (c : string) (l : list string) : list string :=
  if contains c l then l else l ++ [c].

Definition remove (c : string) (l : list string) : list string :=
  filter (λ x, x ≠ c) l.

(** [classList.remove(c1, c2, ...)] *)
Definition remove_all (cs : list string) (l : list string) : list string :=
  foldl (λ acc c, remove c acc) l cs.

Definition toggle (c : string) (l : list string) : list string :=
  if contains c l then remove c l else add c l.

End DOMTokenList.

(** ** Computations

  A method runs on a state and either returns or throws.  [steps] lists
  the state after each mutation the method made, in order, so that what
  holds "at any time" is what holds of every element of [steps]; [final]
  is the state the method leaves behind, also when it throws. *)

Module Js.

Inductive Exn :=
| TypeError                       (* a property of null or undefined was read *)
| DOMException (name : string).   (* SecurityError, SyntaxError, NotAllowedError, ... *)

Inductive Completion (A : Type) :=
| Normal (a : A)
| Abrupt (e : Exn).
Arguments Normal {A} a.
Arguments Abrupt {A} e.

Record Run (S A : Type) := mkRun {
  steps : list S;
  final : S;
  completion : Completion A
}.
Arguments mkRun {S A} _ _ _.
Arguments steps {S A} _.
Arguments final {S A} _.
Arguments completion {S A} _.

Definition M (S A : Type) : Type := S → Run S A.

Section Combinators.
Context {S : Type}.

Definition ret {A} (a : A) : M S A := λ s, mkRun [] s (Normal a).

Definition throw {A} (e : Exn) : M S A := λ s, mkRun [] s (Abrupt e).

Definition bind {A B} (f : A → M S B) (m : M S A) : M S B := λ s,
  let r := m s in
  match completion r with
  | Normal a =>
      let r' := f a (final r) in
      mkRun (steps r ++ steps r') (final r') (completion r')
  | Abrupt e => mkRun (steps r) (final r) (Abrupt e)
  end.

(** [try { m } catch (err) { h err }] *)
Definition try_catch {A} (m : M S A) (h : Exn → M S A) : M S A := λ s,
  let r := m s in
  match completion r with
  | Normal a => r
  | Abrupt e =>
      let r' := h e (final r) in
      mkRun (steps r ++ steps r') (final r') (completion r')
  end.

Definition inspect {A} (f : S → A) : M S A := λ s, ret (f s) s.

Definition mutate (f : S → S) : M S unit :=
  λ s, mkRun [f s] (f s) (Normal tt).

Definition returns {A} (r : Run S A) : bool :=
  match completion r with
  | Normal _ => true
  | Abrupt _ => false
  end.
End Combinators.

#[export] Instance M_ret {S} : MRet (M S) := @ret S.
#[export] Instance M_bind {S} : MBind (M S) := @bind S.
#[export] Instance M_throw {S} : MThrow Exn (M S) := @throw S.

(** [v || d] on a value that is a string or null. *)
Definition or_default (v : option string) (d : string) : string :=
  match v with
  | Some x => if String.eqb x "" then d else x
  | None => d
  end.

(** [!v] on a value that is a string or null. *)
Definition falsy (v : option string) : bool :=
  match v with
  | Some x => String.eqb x ""
  | None => true
  end.

(** [v === c] on a value that is a string or null, [c] a string. *)
Definition strict_eq (v : option string) (c : string) : bool :=
  match v with
  | Some x => String.eqb x c
  | None => false
  end.

End Js.

Import Js.

(** ** ThemeManager *)

Module ThemeManager.

(** The part of the page and of the browser the controller touches.  A
    button is [None] when [getElementById] found nothing; the storage is
    [None] in an environment where reaching [localStorage] throws. *)
Record State := mkState {
  html : list string;                       (* document.documentElement.classList *)
  lightBtn : option (list string);          (* classList of #theme-light *)
  darkBtn : option (list string);           (* classList of #theme-dark *)
  autoBtn : option (list string);           (* classList of #theme-auto *)
  localStorage : option (gmap string string);
  prefersDark : bool                        (* matchMedia('(prefers-color-scheme: dark)').matches *)
}.

Definition set_html (f : list string → list string) (s : State) : State :=
  mkState (f (html s)) (lightBtn s) (darkBtn s) (autoBtn s) (localStorage s) (prefersDark s).
Definition set_lightBtn (f : list string → list string) (s : State) : State :=
  mkState (html s) (f <$> lightBtn s) (darkBtn s) (autoBtn s) (localStorage s) (prefersDark s).
Definition set_darkBtn (f : list string → list string) (s : State) : State :=
  mkState (html s) (lightBtn s) (f <$> darkBtn s) (autoBtn s) (localStorage s) (prefersDark s).
Definition set_autoBtn (f : list string → list string) (s : State) : State :=
  mkState (html s) (lightBtn s) (darkBtn s) (f <$> autoBtn s) (localStorage s) (prefersDark s).
Definition set_localStorage (m : gmap string string) (s : State) : State :=
  mkState (html s) (lightBtn s) (darkBtn s) (autoBtn s) (Some m) (prefersDark s).
Definition set_prefersDark (b : bool) (s : State) : State :=
  mkState (html s) (lightBtn s) (darkBtn s) (autoBtn s) (localStorage s) b.

(** [btn?.classList.op(...)]: nothing happens on a missing button. *)
Definition mutate_opt (btn : State → option (list string))
    (f : State → State) : M State unit :=
  λ s, if btn s is Some _ then mutate f s else ret tt s.

Definition localStorage_getItem (k : string) : M State (option string) :=
  λ s, match localStorage s with
       | Some m => ret (m !! k) s
       | None => throw (DOMException "SecurityError") s
       end.

Definition localStorage_setItem (k v : string) : M State unit :=
  λ s, match localStorage s with
       | Some m => mutate (set_localStorage (<[k:=v]> m)) s
       | None => throw (DOMException "SecurityError") s
       end.

Definition matchMedia_matches : M State bool := inspect prefersDark.

(** *** The methods *)

Definition updateActiveButton : M State unit :=
  v ← localStorage_getItem "theme";
  let currentTheme := or_default v "auto" in
  mutate_opt lightBtn (set_lightBtn (DOMTokenList.remove "active"));;
  mutate_opt darkBtn (set_darkBtn (DOMTokenList.remove "active"));;
  mutate_opt autoBtn (set_autoBtn (DOMTokenList.remove "active"));;
  if String.eqb currentTheme "theme-light" then
    mutate_opt lightBtn (set_lightBtn (DOMTokenList.add "active"))
  else if String.eqb currentTheme "theme-dark" then
    mutate_opt darkBtn (set_darkBtn (DOMTokenList.add "active"))
  else
    mutate_opt autoBtn (set_autoBtn (DOMTokenList.add "active")).

Definition setLightTheme : M State unit :=
  mutate (set_html (DOMTokenList.remove "theme-dark"));;
  mutate (set_html (DOMTokenList.add "theme-light"));;
  localStorage_setItem "theme" "theme-light";;
  updateActiveButton.

Definition setDarkTheme : M State unit :=
  mutate (set_html (DOMTokenList.remove "theme-light"));;
  mutate (set_html (DOMTokenList.add "theme-dark"));;
  localStorage_setItem "theme" "theme-dark";;
  updateActiveButton.

Definition setAutoTheme : M State unit :=
  mutate (set_html (DOMTokenList.remove_all ["theme-light"; "theme-dark"]));;
  localStorage_setItem "theme" "auto";;
  updateActiveButton.

Definition loadTheme : M State unit :=
  savedTheme ← localStorage_getItem "theme";
  systemPrefersDark ← matchMedia_matches;
  if strict_eq savedTheme "theme-light" then setLightTheme
  else if strict_eq savedTheme "theme-dark" then setDarkTheme
  else setAutoTheme.

(** The listener [bindEvents] puts on the colour-scheme media query;
    [e_matches] is [e.matches]. *)
Definition onColorSchemeChange (e_matches : bool) : M State unit :=
  currentTheme ← localStorage_getItem "theme";
  if falsy currentTheme || strict_eq currentTheme "auto" then
    if e_matches then mutate (set_html (DOMTokenList.add "theme-dark"))
    else mutate (set_html (DOMTokenList.remove "theme-dark"))
  else mret tt.

(** Registering the listeners changes nothing in [State]: the click
    listeners are the three setters, the media-query listener is
    [onColorSchemeChange]; [exec] below dispatches them. *)
Definition bindEvents : M State unit := mret tt.

Definition init : M State unit :=
  loadTheme;; bindEvents;; updateActiveButton.

(** What can happen to the controller once the page is set up: a method
    runs (a selector button was clicked), or the OS colour scheme
    changes, which flips the media query and fires its listener. *)
Inductive Op :=
| LoadTheme
| SetLightTheme
| SetDarkTheme
| SetAutoTheme
| UpdateActiveButton
| ColorSchemeChange (e_matches : bool).

Definition exec (o : Op) : M State unit :=
  match o with
  | LoadTheme => loadTheme
  | SetLightTheme => setLightTheme
  | SetDarkTheme => setDarkTheme
  | SetAutoTheme => setAutoTheme
  | UpdateActiveButton => updateActiveButton
  | ColorSchemeChange b => mutate (set_prefersDark b);; onColorSchemeChange b
  end.

Fixpoint exec_all (os : list Op) : M State unit :=
  match os with
  | [] => mret tt
  | o :: os' => exec o;; exec_all os'
  end.

(** *** Observations *)

Definition light_in (h : list string) : bool := DOMTokenList.contains "theme-light" h.
Definition dark_in (h : list string) : bool := DOMTokenList.contains "theme-dark" h.

Definition has_light (s : State) : bool := light_in (html s).
Definition has_dark (s : State) : bool := dark_in (html s).

Definition at_most_one (s : State) : bool := negb (has_light s && has_dark s).
Definition neither (s : State) : bool := negb (has_light s) && negb (has_dark s).

(** The stored preference, [None] when absent or unreachable. *)
Definition stored (s : State) : option string :=
  m ← localStorage s; m !! "theme".

(** The stored preference is "auto" or absent. *)
Definition stored_auto (s : State) : bool :=
  falsy (stored s) || strict_eq (stored s) "auto".

(** Between two operations the root agrees with the stored preference:
    an explicit theme has its class and not the other one, and in
    automatic mode the light class is off. *)
Definition settled (s : State) : bool :=
  if strict_eq (stored s) "theme-light" then has_light s && negb (has_dark s)
  else if strict_eq (stored s) "theme-dark" then has_dark s && negb (has_light s)
  else negb (has_light s).

(** The state the controller is in between two operations of a page
    whose storage works. *)
Definition Good (s : State) : Prop :=
  is_Some (localStorage s) ∧ settled s = true.

Definition is_active (b : option (list string)) : bool :=
  match b with
  | Some l => DOMTokenList.contains "active" l
  | None => false
  end.

Definition active_count (s : State) : nat :=
  Nat.b2n (is_active (lightBtn s)) + Nat.b2n (is_active (darkBtn s))
  + Nat.b2n (is_active (autoBtn s)).

(** The selector a stored preference stands for, as [updateActiveButton]
    reads it: anything but the two explicit themes is automatic. *)
Inductive Choice := Light | Dark | Auto.

Definition choice (s : State) : Choice :=
  let currentTheme := or_default (stored s) "auto" in
  if String.eqb currentTheme "theme-light" then Light
  else if String.eqb currentTheme "theme-dark" then Dark
  else Auto.

Definition Choice_eqb (a b : Choice) : bool :=
  match a, b with
  | Light, Light | Dark, Dark | Auto, Auto => true
  | _, _ => false
  end.

(** What [updateActiveButton] does to the class list of the button that
    stands for [c], when [cur] is the current choice. *)
Definition mark (c cur : Choice) (l : list string) : list string :=
  if Choice_eqb c cur
  then DOMTokenList.add "active" (DOMTokenList.remove "active" l)
  else DOMTokenList.remove "active" l.

(** A button that is on the page is marked exactly when it stands for
    the stored preference. *)
Definition shows (c : Choice) (btn : State → option (list string))
    (s : State) : Prop :=
  is_Some (btn s) → is_active (btn s) = Choice_eqb c (choice s).

(** The four operations that end by refreshing the selector. *)
Definition theme_ops : list Op :=
  [LoadTheme; SetLightTheme; SetDarkTheme; SetAutoTheme].

(** Sample pages: one whose markup carries both classes and no
    selector, one with the three selectors all marked and a stale
    preference, and the latter in a browser that denies storage. *)
Definition page_both_classes : State :=
  mkState ["theme-light"; "theme-dark"] None None None (Some ∅) true.

Definition page_with_buttons : State :=
  mkState ["no-js"] (Some ["btn"; "active"]) (Some ["active"; "btn"])
    (Some ["btn"; "active"]) (Some {["theme" := "sepia"]}) false.

Definition page_without_storage : State :=
  mkState ["no-js"; "theme-dark"] (Some ["btn"]) (Some ["btn"; "active"])
    (Some ["btn"]) None false.

Definition page_plain : State :=
  mkState [] None None None (Some ∅) false.

End ThemeManager.

(** ** MobileMenu *)

Module MobileMenu.

Record Button := mkButton {
  btnClassList : list string;   (* navBtn.classList *)
  ariaExpanded : option string  (* the aria-expanded attribute, None when not set *)
}.

Record State := mkState {
  html : list string;           (* document.documentElement.classList *)
  navBtn : option Button;       (* document.querySelector('.navbar-btn') *)
  navList : bool                (* whether querySelector('.navbar-list') found an element *)
}.

Definition set_html (f : list string → list string) (s : State) : State :=
  mkState (f (html s)) (navBtn s) (navList s).

Definition classList_to (f : list string → list string) (b : Button) : Button :=
  mkButton (f (btnClassList b)) (ariaExpanded b).

Definition setAttribute_ariaExpanded (v : string) (b : Button) : Button :=
  mkButton (btnClassList b) (Some v).

(** [this.navBtn.m(...)]: a TypeError when the button is null. *)
Definition on_navBtn (f : Button → Button) : M State unit :=
  λ s, match navBtn s with
       | Some b => mutate (λ s, mkState (html s) (Some (f b)) (navList s)) s
       | None => throw TypeError s
       end.

Definition html_contains (c : string) : M State bool :=
  inspect (λ s, DOMTokenList.contains c (html s)).

(** [setAttribute] turns a boolean into its string. *)
Definition string_of_bool (b : bool) : string :=
  if b then "true" else "false".

Definition toggle : M State unit :=
  mutate (set_html (DOMTokenList.toggle "show-mobile-nav"));;
  on_navBtn (classList_to (DOMTokenList.toggle "active"));;
  isExpanded ← html_contains "show-mobile-nav";
  on_navBtn (setAttribute_ariaExpanded (string_of_bool isExpanded)).

Definition open : M State unit :=
  mutate (set_html (DOMTokenList.add "show-mobile-nav"));;
  on_navBtn (classList_to (DOMTokenList.add "active"));;
  on_navBtn (setAttribute_ariaExpanded "true").

Definition close : M State unit :=
  mutate (set_html (DOMTokenList.remove "show-mobile-nav"));;
  on_navBtn (classList_to (DOMTokenList.remove "active"));;
  on_navBtn (setAttribute_ariaExpanded "false").

(** *** Events

    Where an event lands: on the toggle button, on an element inside
    the navigation list (with that element's [tagName]), or anywhere
    else on the page, outside the navigation. *)
Inductive Target :=
| OnNavBtn
| InNavList (tagName : string)
| Elsewhere.

Inductive Event :=
| Click (t : Target)
| Keydown (t : Target) (key : string).

(** The listeners of [bindEvents]; a listener answers whether it called
    [preventDefault]. *)
Definition navBtn_onClick : M State bool :=
  toggle;; mret false.

Definition navBtn_onKeydown (key : string) : M State bool :=
  if String.eqb key "Enter" || String.eqb key " " then
    toggle;; mret true
  else mret false.

Definition navList_onClick (tagName : string) : M State bool :=
  shown ← html_contains "show-mobile-nav";
  if String.eqb tagName "A" && shown then close;; mret false
  else mret false.

Definition document_onKeydown (key : string) : M State bool :=
  shown ← html_contains "show-mobile-nav";
  if String.eqb key "Escape" && shown then close;; mret false
  else mret false.

(** An event runs the listeners on its way up from the target to the
    document.  [init] binds none when the button is missing, and
    [bindEvents] none on a missing list; no listener of the menu is on
    the document for clicks. *)
Definition dispatch (e : Event) : M State bool :=
  λ s,
    if navBtn s is Some _ then
      match e with
      | Click OnNavBtn => navBtn_onClick s
      | Click (InNavList tagName) =>
          if navList s then navList_onClick tagName s else ret false s
      | Click Elsewhere => ret false s
      | Keydown t key =>
          (prevented ← (if t is OnNavBtn then navBtn_onKeydown key else mret false);
           _ ← document_onKeydown key;
           mret prevented) s
      end
    else ret false s.

(** *** Observations *)

Definition shown (s : State) : bool :=
  DOMTokenList.contains "show-mobile-nav" (html s).

Definition expanded (s : State) : option string :=
  b ← navBtn s; ariaExpanded b.

Definition btn_active (s : State) : bool :=
  if navBtn s is Some b then DOMTokenList.contains "active" (btnClassList b)
  else false.

(** The attribute mirrors the class, as after any toggle, open or close. *)
Definition in_sync (s : State) : Prop :=
  expanded s = Some (string_of_bool (shown s)).

(** The event closes the menu. *)
Definition closed_by (e : Event) (s : State) : Prop :=
  returns (dispatch e s) = true
  ∧ shown (final (dispatch e s)) = false
  ∧ expanded (final (dispatch e s)) = Some "false".

(** Sample pages: the menu as the markup ships it, closed and with no
    aria-expanded attribute yet, and the menu once opened. *)
Definition page_fresh : State :=
  mkState ["no-js"] (Some (mkButton ["navbar-btn"] None)) true.

Definition page_open : State :=
  mkState ["no-js"; "show-mobile-nav"]
    (Some (mkButton ["navbar-btn"; "active"] (Some "true"))) true.

End MobileMenu.

(** ** BackToTop *)

Module BackToTop.

Record State := mkState {
  pageYOffset : Q;                  (* window.pageYOffset *)
  documentElement_scrollTop : Q;    (* document.documentElement.scrollTop *)
  body_scrollTop : Q;               (* document.body.scrollTop *)
  btn : option (list string)        (* classList of .back-to-top-fixed *)
}.

Definition showThreshold : Q := 300 # 1.

(** [a || b] on numbers: [a] unless it is zero. *)
Definition num_or (a b : Q) : Q :=
  if Qeq_bool a 0 then b else a.

Definition getScrollTop (s : State) : Q :=
  num_or (pageYOffset s)
    (num_or (documentElement_scrollTop s)
       (num_or (body_scrollTop s) 0)).

Definition on_btn (f : list string → list string) : M State unit :=
  λ s, match btn s with
       | Some l =>
           mutate (λ s, mkState (pageYOffset s) (documentElement_scrollTop s)
                          (body_scrollTop s) (Some (f l))) s
       | None => throw TypeError s
       end.

Definition checkVisibility : M State unit :=
  scrollTop ← inspect getScrollTop;
  if Qle_bool showThreshold scrollTop then
    on_btn (DOMTokenList.add "show")
  else
    on_btn (DOMTokenList.remove "show").

(** Registering the click and scroll listeners changes nothing here. *)
Definition bindEvents : M State unit := mret tt.

Definition init : M State unit :=
  λ s, if btn s is Some _ then (bindEvents;; checkVisibility) s else ret tt s.

Definition visible (s : State) : bool :=
  if btn s is Some l then DOMTokenList.contains "show" l else false.

Definition page_at (y : Q) : State :=
  mkState y y 0 (Some ["back-to-top-fixed"]).

End BackToTop.

(** ** LazyLoader *)

Module LazyLoader.

Record Element := mkElement {
  lazy : bool;                  (* carries the attribute background-image-lazy *)
  data_img : option string;     (* dataset.img *)
  backgroundImage : string;     (* style.backgroundImage *)
  classList : list string
}.

(** Elements are named by their position in document order.  A pending
    animation-frame callback has captured its element and the URL. *)
Record State := mkState {
  hasIntersectionObserver : bool;   (* 'IntersectionObserver' in window *)
  elements : list Element;
  frames : list (nat * string);     (* callbacks given to requestAnimationFrame *)
  observed : list nat               (* targets of the image observer *)
}.

Definition is_lazy (els : list Element) (i : nat) : bool :=
  if els !! i is Some e then lazy e else false.

(** [document.querySelectorAll('[background-image-lazy]')] *)
Definition querySelectorAll_lazy (s : State) : list nat :=
  filter (λ i, is_lazy (elements s) i = true) (seq 0 (length (elements s))).

Definition requestAnimationFrame (cb : nat * string) (s : State) : State :=
  mkState (hasIntersectionObserver s) (elements s) (frames s ++ [cb]) (observed s).

Definition loadImage (element : nat) (s : State) : State :=
  match elements s !! element with
  | Some e =>
      let imgUrl := data_img e in
      if falsy imgUrl then s
      else if imgUrl is Some url then requestAnimationFrame (element, url) s
      else s
  | None => s
  end.

Definition loadAllImages (s : State) : State :=
  let lazyImages := querySelectorAll_lazy s in
  foldl (λ (s : State) (img : nat), loadImage img s) s lazyImages.

Definition unobserve (i : nat) (s : State) : State :=
  mkState (hasIntersectionObserver s) (elements s) (frames s)
    (filter (λ j, j ≠ i) (observed s)).

Definition observeImages (s : State) : State :=
  let lazyImages := querySelectorAll_lazy s in
  if Nat.eqb (length lazyImages) 0 then s
  else mkState (hasIntersectionObserver s) (elements s) (frames s)
         (observed s ++ lazyImages).

(** The observer's callback, on entries [(target, isIntersecting)]. *)
Definition onIntersection (entries : list (nat * bool)) (s : State) : State :=
  foldl (λ (s : State) (entry : nat * bool),
           if snd entry then unobserve (fst entry) (loadImage (fst entry) s)
           else s)
        s entries.

Definition init (s : State) : State :=
  if negb (hasIntersectionObserver s) then loadAllImages s
  else observeImages s.

(** What a frame callback does to its element.  The assignment to
    [style.backgroundImage] goes through the browser's CSS parser,
    [css]: on a text that is a background image the browser stores the
    value in its own spelling, [Some] of it, and on any other text,
    [None], it drops the assignment and the style stays as it was.  The
    class is added either way. *)
Definition show_image (css : string → option string) (imgUrl : string)
    (e : Element) : Element :=
  mkElement (lazy e) (data_img e)
    (default (backgroundImage e) (css ("url(" ++ imgUrl ++ ")")%string))
    (DOMTokenList.add "loaded" (classList e)).

(** The browser reaches the next animation frame and runs the pending
    callbacks, oldest first. *)
Definition runFrame (css : string → option string) (s : State) : State :=
  mkState (hasIntersectionObserver s)
    (foldl (λ (els : list Element) (cb : nat * string),
              alter (show_image css (snd cb)) (fst cb) els)
           (elements s) (frames s))
    [] (observed s).

(** *** Observations *)

Definition loaded (e : Element) : bool :=
  DOMTokenList.contains "loaded" (classList e).

(** The element has a usable [data-img]. *)
Definition has_source (e : Element) : bool := negb (falsy (data_img e)).

(** The callback [loadImage] schedules for element [i], if any. *)
Definition frame_of (els : list Element) (i : nat) : option (nat * string) :=
  e ← els !! i;
  if falsy (data_img e) then None else (λ url, (i, url)) <$> data_img e.

(** A page as it loads, in a browser without IntersectionObserver. *)
Definition page_of (els : list Element) : State :=
  mkState false els [] [].

Definition sample_elements : list Element :=
  [ mkElement true (Some "/img/cover.jpg") "" ["post-cover"];
    mkElement false None "" ["navbar"];
    mkElement true None "" ["post-cover"];
    mkElement true (Some "") "" [];
    mkElement true (Some "/img/my cover.jpg") "" ["post-cover"] ].

(** The double-quote character. *)
Definition dquote : string := String (Ascii.ascii_of_nat 34) "".

(** What a browser makes of the two texts the sample page assigns: the
    first is a URL, stored in quotes; the second has a space in it and
    is no CSS value.  Nothing else is assigned there. *)
Definition sample_css (text : string) : option string :=
  if String.eqb text "url(/img/cover.jpg)"
  then Some ("url(" ++ dquote ++ "/img/cover.jpg" ++ dquote ++ ")")%string
  else None.

End LazyLoader.

(** ** SmoothScroll *)

Module SmoothScroll.

(** An element on the path from the click target up to the root. *)
Record Node := mkNode {
  localName : string;           (* "a" for an HTML and for an SVG link *)
  href : option string          (* getAttribute('href') *)
}.

(** What [document.querySelector] answers on a selector: an element,
    with the [top] of its bounding rectangle, null, or a SyntaxError
    when the string is no selector. *)
Inductive Lookup :=
| Found (top : Q)
| NotFound
| Invalid.

(** Numbers are the doubles of the engine, finite ones, taken as the
    rationals they are; [plus] and [minus] are its rounding [+] and [-]. *)
Record State := mkState {
  querySelector : string → Lookup;
  navbar_offsetHeight : option Q;   (* document.querySelector('.navbar')?.offsetHeight *)
  pageYOffset : Q;
  plus : Q → Q → Q;
  minus : Q → Q → Q;
  scrollTo_calls : list Q;          (* top of each window.scrollTo({top, behavior: 'smooth'}) *)
  history : list string             (* URL of each history.pushState(null, null, url) *)
}.

(** [a[href^="#"]]: the type selector goes by the local name. *)
Definition matches_anchor (n : Node) : bool :=
  String.eqb (localName n) "a"
  && (if href n is Some h then String.prefix "#" h else false).

(** [e.target.closest(sel)]: the first element of the path that
    matches, the target itself included. *)
Definition closest (path : list Node) : option Node :=
  List.find matches_anchor path.

(** [x || 0] on a number or undefined. *)
Definition num_or_zero (x : option Q) : Q :=
  match x with
  | Some v => if Qeq_bool v 0 then 0 else v
  | None => 0
  end.

Definition scrollTo (top : Q) : M State unit :=
  mutate (λ s, mkState (querySelector s) (navbar_offsetHeight s) (pageYOffset s)
                 (plus s) (minus s) (scrollTo_calls s ++ [top]) (history s)).

Definition pushState (url : string) : M State unit :=
  mutate (λ s, mkState (querySelector s) (navbar_offsetHeight s) (pageYOffset s)
                 (plus s) (minus s) (scrollTo_calls s) (history s ++ [url])).

(** [top + window.pageYOffset - navbarHeight - 20], left to right. *)
Definition targetPosition (s : State) (top : Q) : Q :=
  minus s
    (minus s (plus s top (pageYOffset s)) (num_or_zero (navbar_offsetHeight s)))
    (20 # 1).

(** The click listener on the document; it answers whether it called
    [preventDefault]. *)
Definition onClick (path : list Node) : M State bool :=
  match closest path with
  | None => mret false
  | Some link =>
      let targetId := default "" (href link) in
      if String.eqb targetId "#" then mret false
      else
        targetElement ← inspect (λ s, querySelector s targetId);
        match targetElement with
        | Invalid => mthrow (DOMException "SyntaxError")
        | NotFound => mret false
        | Found top =>
            position ← inspect (λ s, targetPosition s top);
            scrollTo position;;
            pushState targetId;;
            mret true
        end
  end.

(** A sample page with one section and a navbar 60 units high, and a
    click on an icon inside a link.  On the whole numbers of the sample
    the engine's arithmetic is exact. *)
Definition sample_page : State :=
  mkState (λ sel, if String.eqb sel "#about" then Found (800 # 1)
                  else if String.eqb sel "#1" then Invalid else NotFound)
    (Some (60 # 1)) (100 # 1) Qplus Qminus [] [].

Definition click_on (h : string) : list Node :=
  [mkNode "i" None; mkNode "a" (Some h); mkNode "nav" None; mkNode "body" None].

End SmoothScroll.

(** ** CodeCopy *)

Module CodeCopy.

(** The two functions the click listener hands to [setTimeout]. *)
Inductive Callback :=
| RevertCopied    (* textContent = 'Copy'; classList.remove('copied') *)
| RevertFailed.   (* textContent = 'Copy' *)

(** One code block with its button, the console, the clock, the timers
    of the page and the clipboard writes that have not settled yet;
    time is in milliseconds. *)
Record State := mkState {
  textContent : string;               (* button.textContent *)
  classList : list string;            (* button.classList *)
  code : option string;               (* block.querySelector('code')?.textContent *)
  clipboard : string;                 (* what the system clipboard holds *)
  console : list (string * Exn);      (* console.error calls *)
  now : Z;
  timers : list (Z * Callback);       (* due time and callback, in the order set *)
  pending : list string               (* the text of each write a listener awaits,
                                         in the order the writes were started *)
}.

(** How the promise of [navigator.clipboard.writeText] settles. *)
Inductive Outcome :=
| Resolved
| Rejected (err : Exn).

Definition set_textContent (v : string) : M State unit :=
  mutate (λ s, mkState v (classList s) (code s) (clipboard s) (console s)
                 (now s) (timers s) (pending s)).

Definition on_classList (f : list string → list string) : M State unit :=
  mutate (λ s, mkState (textContent s) (f (classList s)) (code s) (clipboard s)
                 (console s) (now s) (timers s) (pending s)).

Definition console_error (msg : string) (err : Exn) : M State unit :=
  mutate (λ s, mkState (textContent s) (classList s) (code s) (clipboard s)
                 (console s ++ [(msg, err)]) (now s) (timers s) (pending s)).

Definition setTimeout (cb : Callback) (delay : Z) : M State unit :=
  mutate (λ s, mkState (textContent s) (classList s) (code s) (clipboard s)
                 (console s) (now s) (timers s ++ [(now s + delay, cb)]%Z)
                 (pending s)).

(** [navigator.clipboard.writeText(text)]: the write is started and
    its promise is pending. *)
Definition writeText (text : string) : M State unit :=
  mutate (λ s, mkState (textContent s) (classList s) (code s) (clipboard s)
                 (console s) (now s) (timers s) (pending s ++ [text])).

(** The [i]-th pending write leaves the list; if it went through, its
    text is on the clipboard. *)
Definition settle (i : nat) (written : option string) : M State unit :=
  mutate (λ s, mkState (textContent s) (classList s) (code s)
                 (default (clipboard s) written)
                 (console s) (now s) (timers s) (delete i (pending s))).

(** The [try] statement of the listener from its [await] on, where
    [awaited] is how the awaited expression completes. *)
Definition resume (awaited : M State unit) : M State unit :=
  try_catch
    (awaited;;
     set_textContent "Copied!";;
     on_classList (DOMTokenList.add "copied");;
     setTimeout RevertCopied 2000)
    (λ err,
       console_error "Failed to copy:" err;;
       set_textContent "Failed";;
       setTimeout RevertFailed 2000).

(** The click listener of the button, as far as it runs in the click.
    It is an async function: with a clipboard ([available]) it starts
    the write and stops at the [await]; nothing of what follows runs
    before the promise settles.  Where [navigator.clipboard] is
    undefined, reading [writeText] of it throws inside the [try], and
    the handler runs in the click. *)
Definition onClick (available : bool) : M State unit :=
  text ← inspect (λ s, or_default (code s) "");
  if available then writeText text
  else resume (mthrow TypeError).

(** The [i]-th pending write settles as [o], and the listener that
    awaits it goes on from its [await]. *)
Definition onSettle (i : nat) (o : Outcome) : M State unit :=
  awaited ← inspect (λ s, pending s !! i);
  match awaited with
  | Some text =>
      match o with
      | Resolved => resume (settle i (Some text))
      | Rejected err => resume (settle i None;; mthrow err)
      end
  | None => mret tt
  end.

Definition run_callback (cb : Callback) : M State unit :=
  match cb with
  | RevertCopied =>
      set_textContent "Copy";;
      on_classList (DOMTokenList.remove "copied")
  | RevertFailed => set_textContent "Copy"
  end.

Definition due (t : Z) (tm : Z * Callback) : bool := (fst tm <=? t)%Z.

(** The clock reaches [t]: the timers due by then fire, in the order
    they were set (which is the order they fall due in, every delay
    being the same), and leave the queue. *)
Definition advance (t : Z) (s : State) : State :=
  let fired := List.filter (due t) (timers s) in
  let waiting := List.filter (λ tm, negb (due t tm)) (timers s) in
  foldl (λ (s : State) (tm : Z * Callback), final (run_callback (snd tm) s))
    (mkState (textContent s) (classList s) (code s) (clipboard s) (console s)
       (Z.max (now s) t) waiting (pending s))
    fired.

Definition NotAllowedError : Exn := DOMException "NotAllowedError".

(** A button at rest, the same button with a write awaited, and the
    button 1500 ms after a copy went through and a second click
    started another write: the timer of the first copy is waiting. *)
Definition idle : State :=
  mkState "Copy" ["copy-btn"] (Some "npm install") "" [] 0 [] [].

Definition clicked : State := final (onClick true idle).

Definition copied_1500_ago : State :=
  final (onClick true
           (advance 1500 (final (onSettle 0 Resolved clicked)))).

End CodeCopy.

(** ** NavbarScroll

    The navbar reads the scroll offset through the same [getScrollTop]
    as the back-to-top control, so its state extends that one. *)

Module NavbarScroll.

Record State := mkState {
  page : BackToTop.State;           (* the window, with the back-to-top control *)
  navbar : option (list string)     (* classList of .navbar *)
}.

Definition scrollThreshold : Q := 50 # 1.

Definition on_navbar (f : list string → list string) : M State unit :=
  λ s, match navbar s with
       | Some l => mutate (λ s, mkState (page s) (Some (f l))) s
       | None => throw TypeError s
       end.

(** [a > b] on numbers. *)
Definition num_gt (a b : Q) : bool := negb (Qle_bool a b).

Definition checkScroll : M State unit :=
  scrollTop ← inspect (λ s, BackToTop.getScrollTop (page s));
  if num_gt scrollTop scrollThreshold then
    on_navbar (DOMTokenList.add "scrolled")
  else
    on_navbar (DOMTokenList.remove "scrolled").

(** Registering the scroll listener changes nothing here. *)
Definition bindEvents : M State unit := mret tt.

Definition init : M State unit :=
  λ s, if navbar s is Some _ then (bindEvents;; checkScroll) s else ret tt s.

(** A method of the back-to-top control, run on the page it is part of. *)
Definition on_page (m : M BackToTop.State unit) : M State unit :=
  λ s, let r := m (page s) in
       mkRun ((λ p, mkState p (navbar s)) <$> steps r)
             (mkState (final r) (navbar s))
             (completion r).

(** One scroll event that both throttles let through: the listener of
    the back-to-top control was registered first, then the navbar's. *)
Definition onScroll : M State unit :=
  on_page BackToTop.checkVisibility;; checkScroll.

Definition scrolled (s : State) : bool :=
  if navbar s is Some l then DOMTokenList.contains "scrolled" l else false.

Definition page_at (y : Q) : State :=
  mkState (BackToTop.page_at y) (Some ["navbar"]).

End NavbarScroll.

(** ** throttle and debounce

    Both close over one variable and one kind of timer.  Time is a
    virtual clock in milliseconds.  What [func] does is its own
    business: the model logs when it is called and with which
    arguments. *)

Module Timers.

(** A timer as [setTimeout] registers it: when it was set, and the
    delay it was given. *)
Record Timer := mkTimer {
  set_at : Z;
  delay : Z
}.

(** [setTimeout] takes a negative delay for 0. *)
Definition due (tm : Timer) : Z := (set_at tm + Z.max (delay tm) 0)%Z.

(** Whether the timer has run by the time a task starts at [t].  Its
    callback is a task of its own: it runs when its due time is
    reached, before any call made at that time or later, but never
    inside the task that set it, the calls made at one same time
    being taken as made in one task. *)
Definition fired (t : Z) (tm : Timer) : bool :=
  ((due tm <=? t) && (set_at tm <? t))%Z.

End Timers.

Module Throttle.

Import Timers.

Section Throttle.
Context {A : Type} (limit : Z).

Record State := mkState {
  inThrottle : bool;            (* undefined, that is falsy, to begin with *)
  timers : list Timer;          (* the pending resets *)
  calls : list (Z * A)          (* when [func] ran, and on what *)
}.

Definition fresh : State := mkState false [] [].

(** The clock reaches [t]: each reset that has fired by then has set
    [inThrottle = false]. *)
Definition tick (t : Z) (s : State) : State :=
  let ran := List.filter (fired t) (timers s) in
  let waiting := List.filter (λ tm, negb (fired t tm)) (timers s) in
  mkState (if ran is [] then inThrottle s else false) waiting (calls s).

(** The throttled function is called at time [t] on [args]. *)
Definition invoke (t : Z) (args : A) (s : State) : State :=
  let s := tick t s in
  if negb (inThrottle s) then
    mkState true (timers s ++ [mkTimer t limit]) (calls s ++ [(t, args)])
  else s.

Definition run (evs : list (Z * A)) : State :=
  foldl (λ (s : State) (e : Z * A), invoke (fst e) (snd e) s) fresh evs.

(** Consecutive entries are at least [limit] apart. *)
Fixpoint spaced (l : list (Z * A)) : Prop :=
  match l with
  | c1 :: (c2 :: _) as l' => (fst c1 + limit ≤ fst c2)%Z ∧ spaced l'
  | _ => True
  end.

(** What a run has established once the clock has reached [T]: the
    log is spaced, and the flag and the timer fit its last entry. *)
Definition settled (T : Z) (s : State) : Prop :=
  spaced (calls s)
  ∧ ((calls s = [] ∧ inThrottle s = false ∧ timers s = [])
     ∨ ∃ pre c,
         calls s = pre ++ [c] ∧ (fst c ≤ T)%Z
         ∧ ((inThrottle s = true ∧ timers s = [mkTimer (fst c) limit])
            ∨ (inThrottle s = false ∧ timers s = [] ∧ (fst c + limit ≤ T)%Z))).

End Throttle.


End Throttle.

Module Debounce.

Import Timers.

Section Debounce.
Context {A : Type} (wait : Z).

Record State := mkState {
  timeout : option (Timer * A); (* the live timer, with the args [later] closes over *)
  calls : list (Z * A)          (* when [func] ran, and on what *)
}.

Definition fresh : State := mkState None [].

(** The clock reaches [t]: the timer, if it has fired by then, has run
    [later], which calls [func] on the captured arguments. *)
Definition tick (t : Z) (s : State) : State :=
  match timeout s with
  | Some (tm, args) =>
      if fired t tm then mkState None (calls s ++ [(due tm, args)]) else s
  | None => s
  end.

(** The debounced function is called at time [t] on [args]:
    [clearTimeout(timeout); timeout = setTimeout(later, wait)]. *)
Definition invoke (t : Z) (args : A) (s : State) : State :=
  let s := tick t s in
  mkState (Some (mkTimer t wait, args)) (calls s).

Definition run (evs : list (Z * A)) : State :=
  foldl (λ (s : State) (e : Z * A), invoke (fst e) (snd e) s) fresh evs.




End Debounce.

End Debounce.

(** ** A button over time *)

Module CodeCopySession.

Import CodeCopy.

(** What happens to a copy button: it is clicked, in a page with or
    without a clipboard; a write that is awaited settles; or time
    passes. *)
Inductive Event :=
| Click (available : bool)
| Settle (i : nat) (o : Outcome)
| Advance (t : Z).

Definition step (e : Event) (s : State) : State :=
  match e with
  | Click available => final (onClick available s)
  | Settle i o => final (onSettle i o s)
  | Advance t => advance t s
  end.

Definition run (evs : list Event) (s : State) : State :=
  foldl (λ (s : State) (e : Event), step e s) s evs.

(** One timer fires. *)
Definition fire (s : State) (tm : Z * Callback) : State :=
  final (run_callback (snd tm) s).

(** The button as [addCopyButton] creates it. *)
Definition fresh (code : option string) (clipboard : string) (now : Z) : State :=
  mkState "Copy" ["copy-btn"] code clipboard [] now [] [].

Definition at_rest (s : State) : Prop :=
  textContent s = "Copy" ∧ DOMTokenList.contains "copied" (classList s) = false.

Definition is_RevertCopied (tm : Z * Callback) : bool :=
  if snd tm is RevertCopied then true else false.

(** A label other than 'Copy' and a 'copied' class each have a timer
    waiting to undo them. *)
Definition covered (s : State) : Prop :=
  (textContent s ≠ "Copy" → timers s ≠ [])
  ∧ (DOMTokenList.contains "copied" (classList s) = true →
     existsb is_RevertCopied (timers s) = true).

End CodeCopySession.

(** ** The image observer *)

Module LazyLoaderObserver.

Import LazyLoader.


(** A page as it loads, in a browser with IntersectionObserver. *)
Definition page_of (els : list Element) : State :=
  mkState true els [] [].

End LazyLoaderObserver.

(** * Properties *)

Module DOMTokenListFacts.
Import DOMTokenList.

Lemma contains_true c l : contains c l = true ↔ c ∈ l.
Proof. unfold contains. apply bool_decide_eq_true. Qed.

Lemma contains_false c l : contains c l = false ↔ c ∉ l.
Proof. unfold contains. apply bool_decide_eq_false. Qed.

Lemma elem_of_add c d l : c ∈ add d l ↔ c = d ∨ c ∈ l.
Proof.
  unfold add. destruct (contains d l) eqn:E.
  - apply contains_true in E. split; [tauto | intros [-> | ?]; done].
  - rewrite elem_of_app. rewrite list_elem_of_singleton. tauto.
Qed.

Lemma elem_of_remove c d l : c ∈ remove d l ↔ c ≠ d ∧ c ∈ l.
Proof. exact (list_elem_of_filter (λ x, x ≠ d) l c). Qed.

Lemma contains_add_eq c l : contains c (add c l) = true.
Proof. apply contains_true, elem_of_add. by left. Qed.

Lemma contains_add_ne c d l : c ≠ d → contains c (add d l) = contains c l.
Proof.
  intros Hne. apply eq_true_iff_eq. rewrite !contains_true, elem_of_add. tauto.
Qed.

Lemma contains_remove_eq c l : contains c (remove c l) = false.
Proof. apply contains_false. rewrite elem_of_remove. tauto. Qed.

Lemma contains_remove_ne c d l : c ≠ d → contains c (remove d l) = contains c l.
Proof.
  intros Hne. apply eq_true_iff_eq. rewrite !contains_true, elem_of_remove. tauto.
Qed.

Lemma remove_absent c l : c ∉ l → remove c l = l.
Proof.
  intros H. unfold remove. induction l as [|x l IH]; [done|].
  rewrite filter_cons_True.
  - f_equal. apply IH. intros ?. apply H. by right.
  - intros ->. apply H. by left.
Qed.

Lemma add_present c l : c ∈ l → add c l = l.
Proof. intros H. unfold add. apply contains_true in H. by rewrite H. Qed.

Lemma remove_remove c l : remove c (remove c l) = remove c l.
Proof. apply remove_absent. rewrite elem_of_remove. tauto. Qed.

(** Removing a token and adding it back puts it last, whatever was there. *)
Lemma add_remove c l : add c (remove c l) = remove c l ++ [c].
Proof.
  unfold add. rewrite contains_remove_eq. done.
Qed.

Lemma remove_add c l : remove c (add c l) = remove c l.
Proof.
  unfold add. destruct (contains c l); [done|].
  unfold remove. rewrite filter_app, filter_cons_False, filter_nil by tauto.
  apply app_nil_r.
Qed.

Lemma add_add c l : add c (add c l) = add c l.
Proof. apply add_present, elem_of_add. by left. Qed.

Lemma toggle_spec c d l :
  contains c (toggle d l) =
  if bool_decide (c = d) then negb (contains d l) else contains c l.
Proof.
  unfold toggle. case_bool_decide as Hcd.
  - subst c. destruct (contains d l) eqn:E; simpl.
    + apply contains_remove_eq.
    + apply contains_add_eq.
  - destruct (contains d l).
    + by apply contains_remove_ne.
    + by apply contains_add_ne.
Qed.

End DOMTokenListFacts.

Module JsFacts.

Section Bind.
Context {S A B : Type} (m : M S A) (f : A → M S B) (s : S).

Lemma bind_normal a :
  completion (m s) = Normal a →
  (m ≫= f) s =
    mkRun (steps (m s) ++ steps (f a (final (m s))))
          (final (f a (final (m s))))
          (completion (f a (final (m s)))).
Proof.
  intros H. unfold mbind, M_bind, bind. cbv zeta. by rewrite H.
Qed.

Lemma bind_abrupt e :
  completion (m s) = Abrupt e →
  (m ≫= f) s = mkRun (steps (m s)) (final (m s)) (Abrupt e).
Proof.
  intros H. unfold mbind, M_bind, bind. cbv zeta. by rewrite H.
Qed.
End Bind.

End JsFacts.

Module ThemeManagerFacts.
Import DOMTokenList DOMTokenListFacts JsFacts ThemeManager.

(** Unfolds the computation of a method on a state whose components are
    known, leaving class lists and the storage map folded. *)
Ltac run :=
  cbv beta iota zeta delta
    [mbind M_bind bind mret M_ret ret mthrow M_throw throw mutate inspect
     mutate_opt localStorage_getItem localStorage_setItem matchMedia_matches
     steps final completion returns
     html lightBtn darkBtn autoBtn localStorage prefersDark
     set_html set_lightBtn set_darkBtn set_autoBtn set_localStorage
     set_prefersDark app fmap option_fmap option_map].

Lemma choice_cases s :
  let cur := or_default (stored s) "auto" in
  (choice s = Light ∧ cur = "theme-light") ∨
  (choice s = Dark ∧ cur = "theme-dark") ∨
  (choice s = Auto ∧ cur ≠ "theme-light" ∧ cur ≠ "theme-dark").
Proof.
  unfold choice. cbv zeta.
  destruct (String.eqb_spec (or_default (stored s) "auto") "theme-light") as [->|H1].
  { left. done. }
  destruct (String.eqb_spec (or_default (stored s) "auto") "theme-dark") as [->|H2].
  { right; left. done. }
  right; right. done.
Qed.

(** [updateActiveButton] touches the buttons only, and leaves each of
    them marked or cleared according to the stored preference. *)
Lemma updateActiveButton_run s m :
  localStorage s = Some m →
  ∃ tr s',
    updateActiveButton s = mkRun tr s' (Normal tt)
    ∧ Forall (λ x, html x = html s ∧ localStorage x = Some m) tr
    ∧ s' = mkState (html s)
             (mark Light (choice s) <$> lightBtn s)
             (mark Dark (choice s) <$> darkBtn s)
             (mark Auto (choice s) <$> autoBtn s)
             (Some m) (prefersDark s).
Proof.
  intros Hm. unfold choice, stored. destruct s as [h lb db ab st pd].
  simpl in Hm. subst st. unfold updateActiveButton. simpl.
  set (cur := or_default (m !! "theme") "auto").
  destruct (String.eqb cur "theme-light") eqn:E1;
    [|destruct (String.eqb cur "theme-dark") eqn:E2];
    destruct lb, db, ab; run; fold cur; rewrite ?E1, ?E2; run;
    (eexists _, _; split; [reflexivity|]; split;
     [repeat constructor | reflexivity]).
Qed.

(** Evaluates the tests on a preference that has just been stored. *)
Ltac stored_now :=
  rewrite ?lookup_insert_eq;
  cbn [or_default falsy strict_eq String.eqb Ascii.eqb Bool.eqb orb].

Ltac setter_run s Hm :=
  destruct s as [h lb db ab st pd]; simpl in Hm; subst st;
  unfold setLightTheme, setDarkTheme, setAutoTheme, updateActiveButton;
  destruct lb, db, ab; run; stored_now; run;
  (eexists _, _; split; [reflexivity|]; split;
   [ repeat first [apply Forall_nil_2 | apply Forall_cons_2];
     cbn [html]; first [reflexivity | by left | by right]
   | reflexivity]).

Lemma setLightTheme_run s m :
  localStorage s = Some m →
  ∃ tr s',
    setLightTheme s = mkRun tr s' (Normal tt)
    ∧ Forall (λ x, html x = remove "theme-dark" (html s)
                 ∨ html x = add "theme-light" (remove "theme-dark" (html s))) tr
    ∧ s' = mkState (add "theme-light" (remove "theme-dark" (html s)))
             (mark Light Light <$> lightBtn s)
             (mark Dark Light <$> darkBtn s)
             (mark Auto Light <$> autoBtn s)
             (Some (<["theme":="theme-light"]> m)) (prefersDark s).
Proof. intros Hm. setter_run s Hm. Qed.

Lemma setDarkTheme_run s m :
  localStorage s = Some m →
  ∃ tr s',
    setDarkTheme s = mkRun tr s' (Normal tt)
    ∧ Forall (λ x, html x = remove "theme-light" (html s)
                 ∨ html x = add "theme-dark" (remove "theme-light" (html s))) tr
    ∧ s' = mkState (add "theme-dark" (remove "theme-light" (html s)))
             (mark Light Dark <$> lightBtn s)
             (mark Dark Dark <$> darkBtn s)
             (mark Auto Dark <$> autoBtn s)
             (Some (<["theme":="theme-dark"]> m)) (prefersDark s).
Proof. intros Hm. setter_run s Hm. Qed.

Lemma setAutoTheme_run s m :
  localStorage s = Some m →
  ∃ tr s',
    setAutoTheme s = mkRun tr s' (Normal tt)
    ∧ Forall (λ x, html x = remove "theme-dark" (remove "theme-light" (html s))) tr
    ∧ s' = mkState (remove "theme-dark" (remove "theme-light" (html s)))
             (mark Light Auto <$> lightBtn s)
             (mark Dark Auto <$> darkBtn s)
             (mark Auto Auto <$> autoBtn s)
             (Some (<["theme":="auto"]> m)) (prefersDark s).
Proof. intros Hm. setter_run s Hm. Qed.

(** [loadTheme] is the setter the stored preference selects. *)
Lemma loadTheme_run s m :
  localStorage s = Some m →
  loadTheme s =
    let setter :=
      if strict_eq (m !! "theme") "theme-light" then setLightTheme
      else if strict_eq (m !! "theme") "theme-dark" then setDarkTheme
      else setAutoTheme in
    mkRun (steps (setter s)) (final (setter s)) (completion (setter s)).
Proof.
  intros Hm. unfold loadTheme, localStorage_getItem, matchMedia_matches, inspect.
  unfold mbind, M_bind, bind, ret. rewrite Hm. reflexivity.
Qed.

(** *** The two theme classes on the root *)

Lemma at_most_one_html s :
  at_most_one s = negb (light_in (html s) && dark_in (html s)).
Proof. reflexivity. Qed.

Lemma light_ne_dark : "theme-light" ≠ "theme-dark".
Proof. discriminate. Qed.

Lemma dark_ne_light : "theme-dark" ≠ "theme-light".
Proof. discriminate. Qed.

Ltac classes :=
  unfold light_in, dark_in;
  rewrite ?contains_add_eq, ?contains_remove_eq,
    ?(contains_add_ne _ _ _ light_ne_dark), ?(contains_add_ne _ _ _ dark_ne_light),
    ?(contains_remove_ne _ _ _ light_ne_dark), ?(contains_remove_ne _ _ _ dark_ne_light),
    ?contains_remove_eq, ?contains_add_eq.

Lemma html_setLight h :
  light_in (add "theme-light" (remove "theme-dark" h)) = true
  ∧ dark_in (add "theme-light" (remove "theme-dark" h)) = false
  ∧ dark_in (remove "theme-dark" h) = false.
Proof. by classes. Qed.

Lemma html_setDark h :
  dark_in (add "theme-dark" (remove "theme-light" h)) = true
  ∧ light_in (add "theme-dark" (remove "theme-light" h)) = false
  ∧ light_in (remove "theme-light" h) = false.
Proof. by classes. Qed.

Lemma html_setAuto h :
  light_in (remove "theme-dark" (remove "theme-light" h)) = false
  ∧ dark_in (remove "theme-dark" (remove "theme-light" h)) = false.
Proof. by classes. Qed.

Lemma settled_at_most_one s : settled s = true → at_most_one s = true.
Proof.
  unfold settled, at_most_one.
  destruct (strict_eq (stored s) "theme-light");
    [|destruct (strict_eq (stored s) "theme-dark")];
    destruct (has_light s), (has_dark s); done.
Qed.

(** In automatic mode the stored value is neither explicit theme. *)
Lemma auto_not_explicit v :
  falsy v || strict_eq v "auto" = true →
  strict_eq v "theme-light" = false ∧ strict_eq v "theme-dark" = false.
Proof.
  destruct v as [x|]; [|done]. simpl.
  intros [H|H]%orb_true_iff; apply String.eqb_eq in H; by subst x.
Qed.

Lemma settled_auto s :
  settled s = true → stored_auto s = true → has_light s = false.
Proof.
  unfold settled, stored_auto. intros Hs [H1 H2]%auto_not_explicit.
  rewrite H1, H2 in Hs. by apply negb_true_iff.
Qed.

(** Every setter, from any state of a page whose storage works, keeps
    the two classes apart at each step and leaves a settled state. *)
Lemma setLightTheme_good s :
  is_Some (localStorage s) →
  let r := setLightTheme s in
  returns r = true
  ∧ Forall (λ x, at_most_one x = true) (steps r)
  ∧ Good (final r)
  ∧ has_light (final r) = true ∧ has_dark (final r) = false.
Proof.
  intros [m Hm]. destruct (setLightTheme_run s m Hm) as (tr & s' & -> & Htr & ->).
  pose proof (html_setLight (html s)) as (Hl & Hd & Hd').
  cbv zeta. unfold returns. cbn [completion steps final].
  split; [done|]. split.
  { eapply Forall_impl; [exact Htr|]. intros x Hx. rewrite at_most_one_html.
    destruct Hx as [-> | ->]; rewrite ?Hl, ?Hd, ?Hd'; [apply negb_true_iff, andb_false_r | done]. }
  unfold Good, settled, stored, has_light, has_dark. cbn.
  rewrite lookup_insert_eq. cbn [strict_eq]. rewrite Hl, Hd. eauto.
Qed.

Lemma setDarkTheme_good s :
  is_Some (localStorage s) →
  let r := setDarkTheme s in
  returns r = true
  ∧ Forall (λ x, at_most_one x = true) (steps r)
  ∧ Good (final r)
  ∧ has_light (final r) = false ∧ has_dark (final r) = true.
Proof.
  intros [m Hm]. destruct (setDarkTheme_run s m Hm) as (tr & s' & -> & Htr & ->).
  pose proof (html_setDark (html s)) as (Hd & Hl & Hl').
  cbv zeta. unfold returns. cbn [completion steps final].
  split; [done|]. split.
  { eapply Forall_impl; [exact Htr|]. intros x Hx. rewrite at_most_one_html.
    destruct Hx as [-> | ->]; rewrite ?Hl, ?Hd, ?Hl'; done. }
  unfold Good, settled, stored, has_light, has_dark. cbn.
  rewrite lookup_insert_eq. cbn [strict_eq]. rewrite Hl, Hd. eauto.
Qed.

Lemma setAutoTheme_good s :
  is_Some (localStorage s) →
  let r := setAutoTheme s in
  returns r = true
  ∧ Forall (λ x, at_most_one x = true) (steps r)
  ∧ Good (final r)
  ∧ has_light (final r) = false ∧ has_dark (final r) = false.
Proof.
  intros [m Hm]. destruct (setAutoTheme_run s m Hm) as (tr & s' & -> & Htr & ->).
  pose proof (html_setAuto (html s)) as (Hl & Hd).
  cbv zeta. unfold returns. cbn [completion steps final].
  split; [done|]. split.
  { eapply Forall_impl; [exact Htr|]. intros x Hx. rewrite at_most_one_html.
    rewrite Hx, Hl. done. }
  unfold Good, settled, stored, has_light, has_dark. cbn.
  rewrite lookup_insert_eq. cbn [strict_eq]. rewrite Hl, Hd. eauto.
Qed.

Lemma loadTheme_good s :
  is_Some (localStorage s) →
  let r := loadTheme s in
  returns r = true
  ∧ Forall (λ x, at_most_one x = true) (steps r)
  ∧ Good (final r).
Proof.
  intros Hs. destruct Hs as [m Hm] eqn:E. rewrite (loadTheme_run s m Hm).
  cbv zeta. unfold returns. cbn [completion steps final].
  destruct (strict_eq (m !! "theme") "theme-light");
    [|destruct (strict_eq (m !! "theme") "theme-dark")].
  - destruct (setLightTheme_good s Hs) as (? & ? & ? & _). done.
  - destruct (setDarkTheme_good s Hs) as (? & ? & ? & _). done.
  - destruct (setAutoTheme_good s Hs) as (? & ? & ? & _). done.
Qed.

Lemma updateActiveButton_good s :
  Good s →
  let r := updateActiveButton s in
  returns r = true
  ∧ Forall (λ x, at_most_one x = true) (steps r)
  ∧ Good (final r)
  ∧ html (final r) = html s ∧ localStorage (final r) = localStorage s.
Proof.
  intros [[m Hm] Hs].
  destruct (updateActiveButton_run s m Hm) as (tr & s' & -> & Htr & ->).
  cbv zeta. unfold returns. cbn [completion steps final].
  pose proof (settled_at_most_one s Hs) as Ha.
  split; [done|]. split.
  { eapply Forall_impl; [exact Htr|]. intros x [Hx _].
    rewrite at_most_one_html, Hx. exact Ha. }
  split; [|by rewrite Hm].
  split; [by eexists|]. revert Hs. unfold settled, stored, has_light, has_dark.
  rewrite Hm. done.
Qed.

(** The media-query listener follows the OS in automatic mode and does
    nothing under an explicit choice. *)
Lemma onColorSchemeChange_run b s m :
  localStorage s = Some m →
  onColorSchemeChange b s =
    if stored_auto s then
      let s' := set_html (if b then add "theme-dark" else remove "theme-dark") s in
      mkRun [s'] s' (Normal tt)
    else mkRun [] s (Normal tt).
Proof.
  intros Hm. unfold onColorSchemeChange, stored_auto, stored, localStorage_getItem.
  unfold mbind at 1, M_bind, bind. rewrite Hm. cbn [ret completion final steps option_bind mbind].
  destruct (falsy (m !! "theme") || strict_eq (m !! "theme") "auto"); [|done].
  by destruct b.
Qed.

Lemma onColorSchemeChange_good b s :
  Good s →
  let r := onColorSchemeChange b s in
  returns r = true
  ∧ Forall (λ x, at_most_one x = true) (steps r)
  ∧ Good (final r)
  ∧ (stored_auto s = true →
     has_dark (final r) = b ∧ has_light (final r) = false)
  ∧ (stored_auto s = false → final r = s).
Proof.
  intros [[m Hm] Hs]. rewrite (onColorSchemeChange_run b s m Hm).
  destruct (stored_auto s) eqn:E; cbv zeta; unfold returns;
    cbn [steps final completion].
  - pose proof (settled_auto s Hs E) as Hl.
    pose proof E as [E1 E2]%auto_not_explicit.
    set (s' := set_html _ s).
    assert (has_light s' = false ∧ has_dark s' = b) as [Hl' Hd'].
    { revert Hl. unfold s', has_light, has_dark. destruct s as [h ? ? ? ? ?].
      cbn [set_html html]. intros Hl. destruct b; by classes. }
    assert (settled s' = true) as Hs'.
    { unfold settled. change (stored s') with (stored s).
      rewrite E1, E2, Hl'. done. }
    split; [done|]. split; [repeat constructor; by apply settled_at_most_one|].
    split; [split; [exists m; exact Hm | done]|]. split; [done|]. done.
  - split; [done|]. split; [constructor|]. split; [by split; [exists m|]|]. done.
Qed.

Lemma Good_set_prefersDark b s : Good s → Good (set_prefersDark b s).
Proof. done. Qed.

(** Each operation keeps the two classes apart at every step and leaves
    the controller in a good state again. *)
Lemma exec_good o s :
  Good s →
  let r := exec o s in
  returns r = true
  ∧ Forall (λ x, at_most_one x = true) (steps r)
  ∧ Good (final r).
Proof.
  intros Hs. destruct o as [| | | | |b]; cbn [exec].
  - apply loadTheme_good, Hs.
  - destruct (setLightTheme_good s (proj1 Hs)) as (? & ? & ? & _). done.
  - destruct (setDarkTheme_good s (proj1 Hs)) as (? & ? & ? & _). done.
  - destruct (setAutoTheme_good s (proj1 Hs)) as (? & ? & ? & _). done.
  - destruct (updateActiveButton_good s Hs) as (? & ? & ? & _). done.
  - rewrite (bind_normal _ _ _ tt) by reflexivity.
    cbn [mutate steps final completion].
    destruct (onColorSchemeChange_good b _ (Good_set_prefersDark b s Hs))
      as (Hr & Hst & Hg & _).
    unfold returns in *. cbn [completion steps final].
    split; [exact Hr|]. split; [|exact Hg].
    constructor; [|exact Hst].
    apply settled_at_most_one, (Good_set_prefersDark b s Hs).
Qed.

Lemma exec_all_good os : ∀ s,
  Good s →
  let r := exec_all os s in
  returns r = true
  ∧ Forall (λ x, at_most_one x = true) (steps r)
  ∧ Good (final r).
Proof.
  induction os as [|o os IH]; intros s Hs; cbn [exec_all].
  - cbv zeta. split; [done|]. split; [constructor | exact Hs].
  - destruct (exec_good o s Hs) as (Hr & Hst & Hg).
    unfold returns in Hr. destruct (completion (exec o s)) as [[]|] eqn:E; [|done].
    rewrite (bind_normal _ _ _ tt E).
    destruct (IH _ Hg) as (Hr' & Hst' & Hg').
    unfold returns in *. cbn [completion steps final].
    split; [exact Hr'|]. split; [|exact Hg'].
    apply Forall_app. done.
Qed.

Lemma returns_normal {S} (r : Run S unit) :
  returns r = true → completion r = Normal tt.
Proof. unfold returns. by destruct (completion r) as [[]|]. Qed.

Lemma init_good s :
  is_Some (localStorage s) →
  let r := init s in
  returns r = true
  ∧ Forall (λ x, at_most_one x = true) (steps r)
  ∧ Good (final r).
Proof.
  intros Hs. destruct (loadTheme_good s Hs) as (Hr & Hst & Hg).
  apply returns_normal in Hr. unfold init.
  rewrite (bind_normal _ _ _ tt Hr).
  rewrite (bind_normal _ _ _ tt) by reflexivity.
  destruct (updateActiveButton_good _ Hg) as (Hr' & Hst' & Hg' & _).
  unfold returns in *. cbn [bindEvents mret M_ret ret steps final completion app].
  split; [exact Hr'|]. split; [|exact Hg'].
  apply Forall_app. done.
Qed.

(** In automatic mode [loadTheme] has run [setAutoTheme], which leaves
    neither class on the root. *)
Lemma loadTheme_auto_neither s :
  is_Some (localStorage s) →
  stored_auto (final (loadTheme s)) = true →
  neither (final (loadTheme s)) = true.
Proof.
  intros Hs. pose proof Hs as [m Hm]. rewrite (loadTheme_run s m Hm). cbv zeta.
  cbn [final].
  destruct (strict_eq (m !! "theme") "theme-light");
    [|destruct (strict_eq (m !! "theme") "theme-dark")].
  - destruct (setLightTheme_run s m Hm) as (tr & s' & -> & _ & ->).
    unfold stored_auto, stored. cbn [final localStorage mbind option_bind].
    rewrite lookup_insert_eq. done.
  - destruct (setDarkTheme_run s m Hm) as (tr & s' & -> & _ & ->).
    unfold stored_auto, stored. cbn [final localStorage mbind option_bind].
    rewrite lookup_insert_eq. done.
  - intros _. destruct (setAutoTheme_good s Hs) as (_ & _ & _ & Hl & Hd).
    unfold neither. by rewrite Hl, Hd.
Qed.

Lemma init_auto_neither s :
  is_Some (localStorage s) →
  stored_auto (final (init s)) = true →
  neither (final (init s)) = true.
Proof.
  intros Hs. destruct (loadTheme_good s Hs) as (Hr%returns_normal & _ & Hg).
  pose proof (loadTheme_auto_neither s Hs) as Hload.
  destruct (updateActiveButton_good _ Hg) as (_ & _ & _ & Hhtml & Hsto).
  unfold init. rewrite (bind_normal _ _ _ tt Hr).
  rewrite (bind_normal _ _ _ tt) by reflexivity.
  cbn [bindEvents mret M_ret ret final].
  unfold stored_auto, stored, neither, has_light, has_dark in *.
  rewrite Hhtml, Hsto. exact Hload.
Qed.

(** C1, as amended.  On a page whose storage works, set the controller
    up with [init] and let any sequence of operations follow: method
    calls and OS colour-scheme changes, in any order.  Then every
    operation returns; after each single mutation the root carries at
    most one of 'theme-light' and 'theme-dark'; and between operations
    the root is settled, so that 'theme-light' is absent whenever the
    stored preference is 'auto' or absent.  In that automatic mode the
    class 'theme-dark' is absent right after [init], [loadTheme] and
    [setAutoTheme], but not always: from then on it follows the OS,
    present after a change to dark and absent after a change to light. *)
Theorem theme_classes_exclusive s os :
  is_Some (localStorage s) →
  let r := (init;; exec_all os) s in
  returns r = true
  ∧ Forall (λ x, at_most_one x = true) (steps r)
  ∧ at_most_one (final r) = true
  ∧ settled (final r) = true
  ∧ (stored_auto (final r) = true → has_light (final r) = false)
  ∧ (∀ b, stored_auto (final r) = true →
       has_dark (final (exec (ColorSchemeChange b) (final r))) = b)
  ∧ (stored_auto (final (init s)) = true → neither (final (init s)) = true)
  ∧ (stored_auto (final (exec LoadTheme (final r))) = true →
     neither (final (exec LoadTheme (final r))) = true)
  ∧ (stored_auto (final (exec SetAutoTheme (final r))) = true
     ∧ neither (final (exec SetAutoTheme (final r))) = true).
Proof.
  intros Hs. destruct (init_good s Hs) as (Hr & Hst & Hg).
  apply returns_normal in Hr. rewrite (bind_normal _ _ _ tt Hr).
  destruct (exec_all_good os _ Hg) as (Hr' & Hst' & Hg').
  unfold returns in *. cbn [steps final completion].
  set (s' := final (exec_all os (final (init s)))) in *.
  split; [exact Hr'|]. split; [apply Forall_app; done|].
  split; [apply settled_at_most_one, Hg'|]. split; [apply Hg'|].
  split; [apply settled_auto, Hg'|].
  split.
  { intros b Hauto. cbn [exec].
    rewrite (bind_normal _ _ _ tt) by reflexivity. cbn [mutate steps final completion].
    destruct (onColorSchemeChange_good b _ (Good_set_prefersDark b s' Hg'))
      as (_ & _ & _ & H & _).
    apply H. exact Hauto. }
  split; [by apply init_auto_neither|].
  split; [apply loadTheme_auto_neither, Hg'|].
  cbn [exec]. destruct (setAutoTheme_good s' (proj1 Hg')) as (_ & _ & _ & Hl & Hd).
  split; [|unfold neither; by rewrite Hl, Hd].
  destruct Hg' as [[m Hm] _].
  destruct (setAutoTheme_run s' m Hm) as (tr & s'' & -> & _ & ->).
  unfold stored_auto, stored. cbn [final localStorage mbind option_bind].
  rewrite lookup_insert_eq. done.
Qed.

Lemma theme_classes_exclusive_witness :
  is_Some (localStorage page_both_classes)
  ∧ at_most_one
      (final ((init;; exec_all [SetDarkTheme; ColorSchemeChange false; SetAutoTheme])
                page_both_classes)) = true.
Proof.
  assert (is_Some (localStorage page_both_classes)) as Hs by (by eexists).
  split; [exact Hs|].
  destruct (theme_classes_exclusive page_both_classes
              [SetDarkTheme; ColorSchemeChange false; SetAutoTheme] Hs)
    as (_ & _ & Ha & _).
  exact Ha.
Defined.

(** C1 as stated fails: in automatic mode the media-query listener puts
    'theme-dark' on the root, so the stored preference is 'auto' and one
    of the two classes is present. *)
Lemma auto_with_dark_class :
  returns ((init;; exec_all [ColorSchemeChange true]) page_plain) = true
  ∧ stored (final ((init;; exec_all [ColorSchemeChange true]) page_plain))
    = Some "auto"
  ∧ stored_auto (final ((init;; exec_all [ColorSchemeChange true]) page_plain))
    = true
  ∧ html (final ((init;; exec_all [ColorSchemeChange true]) page_plain))
    = ["theme-dark"]
  ∧ neither (final ((init;; exec_all [ColorSchemeChange true]) page_plain))
    = false.
Proof. vm_compute. repeat split. Qed.

(** *** Set, then load *)

Lemma mark_mark c cur l : mark c cur (mark c cur l) = mark c cur l.
Proof.
  unfold mark. destruct (Choice_eqb c cur).
  - by rewrite remove_add, remove_remove.
  - apply remove_remove.
Qed.

Lemma mark_mark_fmap c cur (b : option (list string)) :
  mark c cur <$> (mark c cur <$> b) = mark c cur <$> b.
Proof. destruct b; simpl; [|done]. by rewrite mark_mark. Qed.

Lemma setLightTheme_again s m :
  localStorage s = Some m →
  final (setLightTheme (final (setLightTheme s))) = final (setLightTheme s).
Proof.
  intros Hm. destruct (setLightTheme_run s m Hm) as (tr & s' & -> & _ & ->).
  cbn [final].
  edestruct (setLightTheme_run) as (tr' & s'' & -> & _ & ->); [reflexivity|].
  cbn [final html lightBtn darkBtn autoBtn prefersDark].
  rewrite !mark_mark_fmap, insert_insert_eq. f_equal.
  rewrite (remove_absent "theme-dark"), add_add; [done|].
  apply contains_false. apply html_setLight.
Qed.

Lemma setDarkTheme_again s m :
  localStorage s = Some m →
  final (setDarkTheme (final (setDarkTheme s))) = final (setDarkTheme s).
Proof.
  intros Hm. destruct (setDarkTheme_run s m Hm) as (tr & s' & -> & _ & ->).
  cbn [final].
  edestruct (setDarkTheme_run) as (tr' & s'' & -> & _ & ->); [reflexivity|].
  cbn [final html lightBtn darkBtn autoBtn prefersDark].
  rewrite !mark_mark_fmap, insert_insert_eq. f_equal.
  rewrite (remove_absent "theme-light"), add_add; [done|].
  apply contains_false. apply html_setDark.
Qed.

Lemma setAutoTheme_again s m :
  localStorage s = Some m →
  final (setAutoTheme (final (setAutoTheme s))) = final (setAutoTheme s).
Proof.
  intros Hm. destruct (setAutoTheme_run s m Hm) as (tr & s' & -> & _ & ->).
  cbn [final].
  edestruct (setAutoTheme_run) as (tr' & s'' & -> & _ & ->); [reflexivity|].
  cbn [final html lightBtn darkBtn autoBtn prefersDark].
  rewrite !mark_mark_fmap, insert_insert_eq. f_equal.
  rewrite (remove_absent "theme-light" (remove _ _)).
  - apply remove_remove.
  - apply contains_false. apply html_setAuto.
Qed.

(** After a setter, [loadTheme] runs that same setter again. *)
Lemma load_after_setLight s m :
  localStorage s = Some m →
  let s1 := final (setLightTheme s) in
  returns (loadTheme s1) = true ∧ final (loadTheme s1) = s1.
Proof.
  intros Hm s1. pose proof (setLightTheme_again s m Hm) as Hagain. fold s1 in Hagain.
  assert (localStorage s1 = Some (<["theme":="theme-light"]> m)) as Hm1.
  { unfold s1. by destruct (setLightTheme_run s m Hm) as (tr & s' & -> & _ & ->). }
  rewrite (loadTheme_run s1 _ Hm1), lookup_insert_eq. cbv zeta.
  cbn [strict_eq String.eqb Ascii.eqb Bool.eqb]. unfold returns. cbn [completion final].
  split; [|exact Hagain]. apply (setLightTheme_good s1). by eexists.
Qed.

Lemma load_after_setDark s m :
  localStorage s = Some m →
  let s1 := final (setDarkTheme s) in
  returns (loadTheme s1) = true ∧ final (loadTheme s1) = s1.
Proof.
  intros Hm s1. pose proof (setDarkTheme_again s m Hm) as Hagain. fold s1 in Hagain.
  assert (localStorage s1 = Some (<["theme":="theme-dark"]> m)) as Hm1.
  { unfold s1. by destruct (setDarkTheme_run s m Hm) as (tr & s' & -> & _ & ->). }
  rewrite (loadTheme_run s1 _ Hm1), lookup_insert_eq. cbv zeta.
  cbn [strict_eq String.eqb Ascii.eqb Bool.eqb]. unfold returns. cbn [completion final].
  split; [|exact Hagain]. apply (setDarkTheme_good s1). by eexists.
Qed.

Lemma load_after_setAuto s m :
  localStorage s = Some m →
  let s1 := final (setAutoTheme s) in
  returns (loadTheme s1) = true ∧ final (loadTheme s1) = s1.
Proof.
  intros Hm s1. pose proof (setAutoTheme_again s m Hm) as Hagain. fold s1 in Hagain.
  assert (localStorage s1 = Some (<["theme":="auto"]> m)) as Hm1.
  { unfold s1. by destruct (setAutoTheme_run s m Hm) as (tr & s' & -> & _ & ->). }
  rewrite (loadTheme_run s1 _ Hm1), lookup_insert_eq. cbv zeta.
  cbn [strict_eq String.eqb Ascii.eqb Bool.eqb]. unfold returns. cbn [completion final].
  split; [|exact Hagain]. apply (setAutoTheme_good s1). by eexists.
Qed.

(** C5.  On a page whose storage works, a setter followed by
    [loadTheme] returns and re-applies exactly the state the setter
    left: after [setLightTheme] then [loadTheme] the root has
    'theme-light' and not 'theme-dark'; [setDarkTheme] is the mirror
    case; after [setAutoTheme] then [loadTheme] both classes are off. *)
Theorem set_then_load s :
  is_Some (localStorage s) →
  (let r := (setLightTheme;; loadTheme) s in
   returns r = true ∧ final r = final (setLightTheme s)
   ∧ has_light (final r) = true ∧ has_dark (final r) = false)
  ∧ (let r := (setDarkTheme;; loadTheme) s in
     returns r = true ∧ final r = final (setDarkTheme s)
     ∧ has_dark (final r) = true ∧ has_light (final r) = false)
  ∧ (let r := (setAutoTheme;; loadTheme) s in
     returns r = true ∧ final r = final (setAutoTheme s)
     ∧ has_light (final r) = false ∧ has_dark (final r) = false).
Proof.
  intros Hs. pose proof Hs as [m Hm]. split; [|split]; cbv zeta.
  - destruct (setLightTheme_good s Hs) as (Hr%returns_normal & _ & _ & Hl & Hd).
    destruct (load_after_setLight s m Hm) as [Hr' Hf].
    rewrite (bind_normal _ _ _ tt Hr). unfold returns in *.
    cbn [completion final]. rewrite Hf. done.
  - destruct (setDarkTheme_good s Hs) as (Hr%returns_normal & _ & _ & Hl & Hd).
    destruct (load_after_setDark s m Hm) as [Hr' Hf].
    rewrite (bind_normal _ _ _ tt Hr). unfold returns in *.
    cbn [completion final]. rewrite Hf. done.
  - destruct (setAutoTheme_good s Hs) as (Hr%returns_normal & _ & _ & Hl & Hd).
    destruct (load_after_setAuto s m Hm) as [Hr' Hf].
    rewrite (bind_normal _ _ _ tt Hr). unfold returns in *.
    cbn [completion final]. rewrite Hf. done.
Qed.

Lemma set_then_load_witness :
  is_Some (localStorage page_with_buttons)
  ∧ has_light (final ((setLightTheme;; loadTheme) page_with_buttons)) = true
  ∧ has_dark (final ((setLightTheme;; loadTheme) page_with_buttons)) = false.
Proof.
  assert (is_Some (localStorage page_with_buttons)) as Hs by (by eexists).
  split; [exact Hs|].
  destruct (set_then_load page_with_buttons Hs) as ((_ & _ & Hl & Hd) & _).
  split; [exact Hl | exact Hd].
Defined.

(** *** The selector buttons *)

Lemma is_active_mark c cur (b : option (list string)) :
  is_active (mark c cur <$> b) = if b is Some _ then Choice_eqb c cur else false.
Proof.
  destruct b as [l|]; [|done]. unfold mark. simpl.
  destruct (Choice_eqb c cur).
  - apply contains_add_eq.
  - apply contains_remove_eq.
Qed.

(** A state whose buttons were all refreshed for the choice its storage
    holds has at most one of them marked, the right one. *)
Lemma refreshed_ok h lb db ab m pd :
  let cur := choice (mkState h lb db ab (Some m) pd) in
  let s' := mkState h (mark Light cur <$> lb) (mark Dark cur <$> db)
              (mark Auto cur <$> ab) (Some m) pd in
  (active_count s' ≤ 1)%nat
  ∧ shows Light lightBtn s' ∧ shows Dark darkBtn s' ∧ shows Auto autoBtn s'.
Proof.
  intros cur s'. assert (choice s' = cur) as Hc by reflexivity.
  unfold shows, active_count. rewrite Hc. unfold s'.
  cbn [lightBtn darkBtn autoBtn]. rewrite !is_active_mark.
  destruct cur, lb, db, ab; simpl; repeat split; (lia || done || by intros [? [=]]).
Qed.

Lemma choice_stored h lb db ab m pd v :
  m !! "theme" = Some v → v ≠ "" →
  choice (mkState h lb db ab (Some m) pd) =
    if String.eqb v "theme-light" then Light
    else if String.eqb v "theme-dark" then Dark else Auto.
Proof.
  intros Hv Hne. unfold choice, stored. cbn. rewrite Hv. cbn [or_default].
  destruct (String.eqb_spec v ""); done.
Qed.

(** C10.  On a page whose storage works, each of [loadTheme],
    [setLightTheme], [setDarkTheme] and [setAutoTheme] returns and
    leaves at most one selector button with the 'active' class; every
    button that is on the page is active exactly when it stands for the
    preference now stored, where anything but 'theme-light' and
    'theme-dark' counts as automatic. *)
Theorem active_button_matches s o :
  is_Some (localStorage s) →
  o ∈ theme_ops →
  let r := exec o s in
  returns r = true
  ∧ (active_count (final r) ≤ 1)%nat
  ∧ shows Light lightBtn (final r)
  ∧ shows Dark darkBtn (final r)
  ∧ shows Auto autoBtn (final r).
Proof.
  intros [m Hm] Ho.
  assert (∀ setter c v,
    v ≠ "" →
    c = (if String.eqb v "theme-light" then Light
         else if String.eqb v "theme-dark" then Dark else Auto) →
    (∃ tr s', setter s = mkRun tr s' (Normal tt) ∧
       s' = mkState (html s') (mark Light c <$> lightBtn s)
              (mark Dark c <$> darkBtn s) (mark Auto c <$> autoBtn s)
              (Some (<["theme":=v]> m)) (prefersDark s)) →
    let r := setter s in
    returns r = true ∧ (active_count (final r) ≤ 1)%nat
    ∧ shows Light lightBtn (final r) ∧ shows Dark darkBtn (final r)
    ∧ shows Auto autoBtn (final r)) as Hsetter.
  { intros setter c v Hv Hc (tr & s' & -> & Hs'). cbv zeta.
    unfold returns. cbn [completion final]. split; [done|].
    rewrite Hs'.
    pose proof (refreshed_ok (html s') (lightBtn s) (darkBtn s) (autoBtn s)
                  (<["theme":=v]> m) (prefersDark s)) as H.
    cbv zeta in H.
    rewrite (choice_stored _ _ _ _ _ _ v) in H by (by rewrite ?lookup_insert_eq).
    rewrite <- Hc in H. exact H. }
  assert (let r := setLightTheme s in
          returns r = true ∧ (active_count (final r) ≤ 1)%nat
          ∧ shows Light lightBtn (final r) ∧ shows Dark darkBtn (final r)
          ∧ shows Auto autoBtn (final r)) as HL.
  { apply (Hsetter setLightTheme Light "theme-light"); [done|done|].
    destruct (setLightTheme_run s m Hm) as (tr & s' & -> & _ & ->). by eexists _, _. }
  assert (let r := setDarkTheme s in
          returns r = true ∧ (active_count (final r) ≤ 1)%nat
          ∧ shows Light lightBtn (final r) ∧ shows Dark darkBtn (final r)
          ∧ shows Auto autoBtn (final r)) as HD.
  { apply (Hsetter setDarkTheme Dark "theme-dark"); [done|done|].
    destruct (setDarkTheme_run s m Hm) as (tr & s' & -> & _ & ->). by eexists _, _. }
  assert (let r := setAutoTheme s in
          returns r = true ∧ (active_count (final r) ≤ 1)%nat
          ∧ shows Light lightBtn (final r) ∧ shows Dark darkBtn (final r)
          ∧ shows Auto autoBtn (final r)) as HA.
  { apply (Hsetter setAutoTheme Auto "auto"); [done|done|].
    destruct (setAutoTheme_run s m Hm) as (tr & s' & -> & _ & ->). by eexists _, _. }
  unfold theme_ops in Ho. rewrite !elem_of_cons, elem_of_nil in Ho.
  destruct Ho as [-> | [-> | [-> | [-> | []]]]]; cbn [exec]; try done.
  rewrite (loadTheme_run s m Hm). cbv zeta. unfold returns in *.
  cbn [completion final].
  destruct (strict_eq (m !! "theme") "theme-light");
    [|destruct (strict_eq (m !! "theme") "theme-dark")]; done.
Qed.

Lemma active_button_matches_witness :
  is_Some (localStorage page_with_buttons)
  ∧ LoadTheme ∈ theme_ops
  ∧ (active_count (final (exec LoadTheme page_with_buttons)) ≤ 1)%nat.
Proof.
  assert (is_Some (localStorage page_with_buttons)) as Hs by (by eexists).
  assert (LoadTheme ∈ theme_ops) as Ho by (by left).
  split; [exact Hs|]. split; [exact Ho|].
  destruct (active_button_matches page_with_buttons LoadTheme Hs Ho)
    as (_ & Hc & _).
  exact Hc.
Defined.

(** The refresh alone reads any stored value that is not an explicit
    theme as automatic. *)
Lemma updateActiveButton_matches s :
  is_Some (localStorage s) →
  let r := updateActiveButton s in
  returns r = true
  ∧ (active_count (final r) ≤ 1)%nat
  ∧ shows Light lightBtn (final r)
  ∧ shows Dark darkBtn (final r)
  ∧ shows Auto autoBtn (final r).
Proof.
  intros [m Hm].
  destruct (updateActiveButton_run s m Hm) as (tr & s' & -> & _ & ->).
  cbv zeta. unfold returns. cbn [completion final]. split; [done|].
  pose proof (refreshed_ok (html s) (lightBtn s) (darkBtn s) (autoBtn s)
                m (prefersDark s)) as H.
  cbv zeta in H. destruct s as [h lb db ab st pd]. simpl in Hm. subst st.
  exact H.
Qed.

Example load_stale_preference :
  final (exec LoadTheme page_with_buttons) =
    mkState ["no-js"] (Some ["btn"]) (Some ["btn"])
      (Some ["btn"; "active"]) (Some {["theme" := "auto"]}) false.
Proof. vm_compute. reflexivity. Qed.

(** *** Without storage *)

(** C4, as amended.  Where reaching the storage throws, no operation of
    the controller returns: each one raises the storage error, uncaught.
    [loadTheme] and [updateActiveButton] raise before they change
    anything; the three setters have changed the classes of the root by
    then, and leave the stored preference and the buttons as they were. *)
Theorem storage_unavailable_throws s :
  localStorage s = None →
  (∀ o, completion (exec o s) = Abrupt (DOMException "SecurityError"))
  ∧ loadTheme s = mkRun [] s (Abrupt (DOMException "SecurityError"))
  ∧ updateActiveButton s = mkRun [] s (Abrupt (DOMException "SecurityError"))
  ∧ final (setLightTheme s)
    = set_html (λ h, add "theme-light" (remove "theme-dark" h)) s
  ∧ final (setDarkTheme s)
    = set_html (λ h, add "theme-dark" (remove "theme-light" h)) s
  ∧ final (setAutoTheme s)
    = set_html (remove_all ["theme-light"; "theme-dark"]) s.
Proof.
  intros Hm. destruct s as [h lb db ab st pd]. simpl in Hm. subst st.
  split; [intros [| | | | |b]|]; repeat split.
Qed.

Lemma storage_unavailable_throws_witness :
  localStorage page_without_storage = None
  ∧ updateActiveButton page_without_storage
    = mkRun [] page_without_storage (Abrupt (DOMException "SecurityError")).
Proof.
  split; [reflexivity|].
  destruct (storage_unavailable_throws page_without_storage eq_refl)
    as (_ & _ & Hu & _).
  exact Hu.
Defined.

(** C4 as stated fails: without storage [setLightTheme] does not return,
    it throws, and it is no no-op either, the root has lost
    'theme-dark' and gained 'theme-light' by then. *)
Lemma setLightTheme_without_storage :
  returns (setLightTheme page_without_storage) = false
  ∧ completion (setLightTheme page_without_storage)
    = Abrupt (DOMException "SecurityError")
  ∧ html (final (setLightTheme page_without_storage)) = ["no-js"; "theme-light"]
  ∧ html page_without_storage = ["no-js"; "theme-dark"].
Proof. vm_compute. repeat split. Qed.

End ThemeManagerFacts.

Module MobileMenuFacts.
Import DOMTokenList DOMTokenListFacts JsFacts MobileMenu.

Ltac run :=
  cbv beta iota zeta delta
    [mbind M_bind bind mret M_ret ret mthrow M_throw throw mutate inspect
     on_navBtn html_contains toggle open close
     navBtn_onClick navBtn_onKeydown navList_onClick document_onKeydown dispatch
     steps final completion returns
     html navBtn navList btnClassList ariaExpanded
     set_html classList_to setAttribute_ariaExpanded app
     shown expanded btn_active in_sync option_bind
     String.eqb Ascii.eqb Bool.eqb andb orb].

Lemma shown_toggle h :
  contains "show-mobile-nav" (DOMTokenList.toggle "show-mobile-nav" h)
  = negb (contains "show-mobile-nav" h).
Proof. rewrite toggle_spec. by rewrite bool_decide_eq_true_2. Qed.

(** What one [toggle] does: both classes flip, the attribute is set to
    the string of the new visibility. *)
Lemma toggle_run h b nl :
  ∃ tr,
    toggle (mkState h (Some b) nl) =
      mkRun tr
        (mkState (DOMTokenList.toggle "show-mobile-nav" h)
           (Some (mkButton (DOMTokenList.toggle "active" (btnClassList b))
                    (Some (string_of_bool (negb (contains "show-mobile-nav" h))))))
           nl)
        (Normal tt).
Proof.
  destruct b as [bc ae]. run. rewrite shown_toggle. by eexists.
Qed.

Lemma close_run h b nl :
  ∃ tr,
    close (mkState h (Some b) nl) =
      mkRun tr
        (mkState (remove "show-mobile-nav" h)
           (Some (mkButton (remove "active" (btnClassList b)) (Some "false")))
           nl)
        (Normal tt).
Proof. destruct b as [bc ae]. run. by eexists. Qed.

(** After a toggle the attribute mirrors the class, whatever it was. *)
Lemma toggle_in_sync s b :
  navBtn s = Some b →
  returns (toggle s) = true ∧ in_sync (final (toggle s)).
Proof.
  destruct s as [h nb nl]. intros Hb. cbn [navBtn] in Hb. subst nb.
  destruct (toggle_run h b nl) as [tr ->]. unfold returns, in_sync, expanded, shown.
  cbn [completion final html navBtn ariaExpanded mbind option_bind].
  by rewrite shown_toggle.
Qed.

(** C9, as amended.  With the button on the page, two toggles return
    and bring the visibility class of the root and the 'active' class of
    the button back to what they were; aria-expanded ends as the string
    of the visibility, which is its original value whenever it mirrored
    the class to begin with, as it does after any toggle. *)
Theorem toggle_twice s b :
  navBtn s = Some b →
  let r := (toggle;; toggle) s in
  returns r = true
  ∧ shown (final r) = shown s
  ∧ btn_active (final r) = btn_active s
  ∧ expanded (final r) = Some (string_of_bool (shown s))
  ∧ (in_sync s → expanded (final r) = expanded s)
  ∧ in_sync (final (toggle s)).
Proof.
  intros Hb. pose proof (toggle_in_sync s b Hb) as [_ Hsync].
  destruct s as [h nb nl]. simpl in Hb. subst nb.
  destruct (toggle_run h b nl) as [tr E].
  rewrite (bind_normal _ _ _ tt) by (by rewrite E).
  rewrite E. cbn [final steps completion].
  edestruct (toggle_run) as [tr' ->].
  unfold returns, shown, btn_active, expanded, in_sync in *.
  cbn [final steps completion html navBtn btnClassList ariaExpanded mbind option_bind].
  rewrite !shown_toggle, !toggle_spec, !bool_decide_eq_true_2 by done.
  rewrite !negb_involutive.
  repeat split; try done.
  rewrite E in Hsync. exact Hsync.
Qed.

Lemma toggle_twice_witness :
  navBtn page_open = Some (mkButton ["navbar-btn"; "active"] (Some "true"))
  ∧ expanded (final ((toggle;; toggle) page_open)) = expanded page_open.
Proof.
  split; [reflexivity|].
  apply (toggle_twice page_open _ eq_refl). reflexivity.
Defined.

(** C9 as stated fails on the page as it loads: the button has no
    aria-expanded attribute, and after two toggles it has one. *)
Lemma toggle_twice_sets_attribute :
  expanded page_fresh = None
  ∧ expanded (final ((toggle;; toggle) page_fresh)) = Some "false"
  ∧ shown (final ((toggle;; toggle) page_fresh)) = shown page_fresh.
Proof. vm_compute. repeat split. Qed.

(** *** Closing the open menu *)

Lemma shown_remove h : contains "show-mobile-nav" (remove "show-mobile-nav" h) = false.
Proof. apply contains_remove_eq. Qed.

(** C2, as amended.  With the menu open, a click on a link of the
    navigation list closes it, and so does the Escape key wherever the
    focus is: the visibility class goes and aria-expanded becomes
    'false'.  A click outside the navigation does not close it: no
    listener of the menu runs, and the state stays as it is. *)
Theorem open_menu_closes s b :
  navBtn s = Some b →
  shown s = true →
  (navList s = true → closed_by (Click (InNavList "A")) s)
  ∧ (∀ t, closed_by (Keydown t "Escape") s)
  ∧ dispatch (Click Elsewhere) s = mkRun [] s (Normal false).
Proof.
  destruct s as [h nb nl]. unfold shown. cbn [navBtn navList html].
  intros -> Hshown. destruct b as [bc ae].
  split; [|split].
  - intros ->. unfold closed_by. run. rewrite Hshown. run.
    by rewrite shown_remove.
  - intros t. unfold closed_by. destruct t; run; rewrite Hshown; run;
      by rewrite shown_remove.
  - run. reflexivity.
Qed.

Lemma open_menu_closes_witness :
  navBtn page_open = Some (mkButton ["navbar-btn"; "active"] (Some "true"))
  ∧ shown page_open = true
  ∧ dispatch (Click Elsewhere) page_open = mkRun [] page_open (Normal false).
Proof.
  split; [reflexivity|]. split; [reflexivity|].
  apply (open_menu_closes page_open _ eq_refl eq_refl).
Defined.

(** C2 as stated fails: with the menu open, a click outside the
    navigation leaves the visibility class on the root and
    aria-expanded at 'true'. *)
Lemma click_outside_keeps_menu_open :
  shown page_open = true
  ∧ shown (final (dispatch (Click Elsewhere) page_open)) = true
  ∧ expanded (final (dispatch (Click Elsewhere) page_open)) = Some "true".
Proof. vm_compute. repeat split. Qed.

End MobileMenuFacts.

Module BackToTopFacts.
Import DOMTokenList DOMTokenListFacts JsFacts BackToTop.

Lemma checkVisibility_run s l :
  btn s = Some l →
  checkVisibility s =
    let l' := if Qle_bool showThreshold (getScrollTop s)
              then add "show" l else remove "show" l in
    let s' := mkState (pageYOffset s) (documentElement_scrollTop s)
                (body_scrollTop s) (Some l') in
    mkRun [s'] s' (Normal tt).
Proof.
  intros Hl. unfold checkVisibility, inspect, on_btn.
  unfold mbind, M_bind, bind, ret. cbn [completion final steps].
  destruct (Qle_bool showThreshold (getScrollTop s)); by rewrite Hl.
Qed.

(** C8.  With the control on the page, [checkVisibility] returns, and
    the control carries the 'show' class afterwards if and only if the
    scroll offset [getScrollTop] reads is at least 300; the bound is
    inclusive. *)
Theorem checkVisibility_threshold s l :
  btn s = Some l →
  let r := checkVisibility s in
  returns r = true
  ∧ (visible (final r) = true ↔ (300 # 1 <= getScrollTop s)%Q).
Proof.
  intros Hl. rewrite (checkVisibility_run s l Hl). cbv zeta.
  unfold returns, visible. cbn [completion final btn]. split; [done|].
  rewrite <- Qle_bool_iff. fold showThreshold.
  destruct (Qle_bool showThreshold (getScrollTop s)).
  - by rewrite contains_add_eq.
  - by rewrite contains_remove_eq.
Qed.

Lemma checkVisibility_threshold_witness :
  btn (page_at (300 # 1)) = Some ["back-to-top-fixed"]
  ∧ (visible (final (checkVisibility (page_at (300 # 1)))) = true
     ↔ (300 # 1 <= getScrollTop (page_at (300 # 1)))%Q).
Proof.
  split; [reflexivity|].
  apply (checkVisibility_threshold (page_at (300 # 1)) _ eq_refl).
Defined.

(** The offset the page reports is the one [getScrollTop] reads. *)
Lemma getScrollTop_page_at y : (getScrollTop (page_at y) == y)%Q.
Proof.
  unfold getScrollTop, page_at, num_or. cbn [pageYOffset documentElement_scrollTop body_scrollTop].
  destruct (Qeq_bool y 0) eqn:E; [|reflexivity].
  apply Qeq_bool_iff in E. cbn. by rewrite E.
Qed.

Example shows_at_300 :
  visible (final (checkVisibility (page_at (300 # 1)))) = true.
Proof. vm_compute. reflexivity. Qed.

Example hidden_just_below_300 :
  visible (final (checkVisibility (page_at (2999 # 10)))) = false.
Proof. vm_compute. reflexivity. Qed.

End BackToTopFacts.

Module LazyLoaderFacts.
Import DOMTokenList DOMTokenListFacts LazyLoader.

Lemma loadImage_spec i s :
  loadImage i s =
    mkState (hasIntersectionObserver s) (elements s)
      (frames s ++ option_list (frame_of (elements s) i)) (observed s).
Proof.
  unfold loadImage, frame_of. destruct s as [io els fr ob]. cbn.
  destruct (els !! i) as [e|]; cbn; [|by rewrite app_nil_r].
  destruct (data_img e) as [u|]; cbn; [|by rewrite app_nil_r].
  destruct (String.eqb u ""); cbn; [by rewrite app_nil_r | done].
Qed.

Lemma loadImages_spec idxs : ∀ s,
  foldl (λ (s : State) (img : nat), loadImage img s) s idxs =
    mkState (hasIntersectionObserver s) (elements s)
      (frames s ++ omap (frame_of (elements s)) idxs) (observed s).
Proof.
  induction idxs as [|i idxs IH]; intros s; cbn [foldl].
  - destruct s. cbn. by rewrite app_nil_r.
  - rewrite IH, loadImage_spec. cbn. rewrite <- app_assoc. f_equal.
    f_equal. by destruct (frame_of (elements s) i).
Qed.

Lemma elem_of_querySelectorAll_lazy s i :
  i ∈ querySelectorAll_lazy s ↔ ∃ e, elements s !! i = Some e ∧ lazy e = true.
Proof.
  unfold querySelectorAll_lazy.
  rewrite (list_elem_of_filter (λ i, is_lazy (elements s) i = true)).
  rewrite elem_of_seq. unfold is_lazy. split.
  - intros [H _]. destruct (elements s !! i) as [e|]; [eauto | done].
  - intros (e & He & Hl). rewrite He. split; [done|].
    apply lookup_lt_Some in He. lia.
Qed.

Lemma frame_of_Some els j i u :
  frame_of els j = Some (i, u) ↔
  j = i ∧ ∃ e, els !! i = Some e ∧ data_img e = Some u ∧ has_source e = true.
Proof.
  unfold frame_of, has_source. split.
  - destruct (els !! j) as [e|] eqn:E; cbn; [|done].
    destruct (falsy (data_img e)) eqn:F; [done|].
    destruct (data_img e) as [u'|] eqn:D; cbn; [|done].
    intros [= -> ->]. split; [done|]. exists e. by rewrite D, F.
  - intros (-> & e & -> & D & F). cbn. apply negb_true_iff in F.
    by rewrite F, D.
Qed.

Lemma show_image_twice css u e :
  show_image css u (show_image css u e) = show_image css u e.
Proof.
  unfold show_image. cbn. rewrite add_add. by destruct (css _).
Qed.

(** Running the callbacks of a queue in which every callback of an
    element carries the same URL shows that URL on each queued element
    and leaves the others alone. *)
Lemma run_callbacks_lookup css (g : nat → option string) cbs :
  (∀ i u, (i, u) ∈ cbs → g i = Some u) →
  ∀ (els : list Element) i,
    foldl (λ (els : list Element) (cb : nat * string),
             alter (show_image css (snd cb)) (fst cb) els) els cbs !! i
    = (λ e, if bool_decide (i ∈ cbs.*1)
            then (if g i is Some u then show_image css u e else e)
            else e) <$> els !! i.
Proof.
  induction cbs as [|[j u] cbs IH]; intros Hg els i; cbn [foldl fst snd].
  - destruct (els !! i); done.
  - rewrite IH by (intros ???; apply Hg; by right).
    assert (g j = Some u) as Hj by (apply Hg; by left).
    destruct (decide (i = j)) as [->|Hne].
    + rewrite list_lookup_alter_eq. destruct (els !! j) as [e|]; cbn; [|done].
      rewrite Hj, show_image_twice.
      rewrite (bool_decide_eq_true_2 (j ∈ j :: cbs.*1)) by (by left).
      by case_bool_decide.
    + rewrite list_lookup_alter_ne by done.
      destruct (els !! i) as [e|]; cbn; [|done]. f_equal.
      assert (i ∈ cbs.*1 ↔ i ∈ j :: cbs.*1) as Hiff.
      { rewrite elem_of_cons. tauto. }
      by rewrite (bool_decide_ext _ _ Hiff).
Qed.

Lemma init_without_observer els :
  init (page_of els) =
    mkState false els (omap (frame_of els) (querySelectorAll_lazy (page_of els))) [].
Proof.
  unfold init, page_of. cbn [hasIntersectionObserver negb].
  unfold loadAllImages. cbv zeta. by rewrite loadImages_spec.
Qed.

Lemma elem_of_scheduled els i u :
  (i, u) ∈ omap (frame_of els) (querySelectorAll_lazy (page_of els)) ↔
  ∃ e, els !! i = Some e ∧ lazy e = true ∧ data_img e = Some u
       ∧ has_source e = true.
Proof.
  rewrite list_elem_of_omap. split.
  - intros (j & Hj & (-> & e & He & Hd & Hs)%frame_of_Some).
    apply elem_of_querySelectorAll_lazy in Hj as (e' & He' & Hl).
    cbn in He'. rewrite He in He'. injection He' as <-. eauto.
  - intros (e & He & Hl & Hd & Hs). exists i. split.
    + apply elem_of_querySelectorAll_lazy. eauto.
    + apply frame_of_Some. eauto.
Qed.

(** C3, as amended.  Without IntersectionObserver, [init] schedules a
    callback for every tagged element that has a non-empty [data-img]
    and changes no element itself.  Once the browser has run the next
    animation frame nothing is pending; each of these elements has the
    'loaded' class and has had [url(<data-img>)] assigned to its
    background image, which the browser stores in its own spelling when
    that text is a CSS image and leaves as it was when it is not; and
    every other element is untouched, the tagged ones without a
    [data-img] among them. *)
Theorem eager_fallback css els :
  elements (init (page_of els)) = els
  ∧ frames (runFrame css (init (page_of els))) = []
  ∧ (∀ i e, els !! i = Some e →
       elements (runFrame css (init (page_of els))) !! i =
         Some (if lazy e && has_source e
               then show_image css (default "" (data_img e)) e
               else e))
  ∧ (∀ i e u, els !! i = Some e → lazy e = true → data_img e = Some u → u ≠ "" →
       ∃ e', elements (runFrame css (init (page_of els))) !! i = Some e'
             ∧ loaded e' = true
             ∧ backgroundImage e'
               = default (backgroundImage e) (css ("url(" ++ u ++ ")")%string)).
Proof.
  assert (∀ i e, els !! i = Some e →
       elements (runFrame css (init (page_of els))) !! i =
         Some (if lazy e && has_source e
               then show_image css (default "" (data_img e)) e
               else e)) as Hall.
  { rewrite init_without_observer. cbn [elements runFrame frames].
    intros i e He. set (cbs := omap _ _).
    rewrite (run_callbacks_lookup css (λ i, e ← els !! i; data_img e) cbs).
    2:{ intros j u (e' & He' & _ & Hd & _)%elem_of_scheduled. by rewrite He'. }
    rewrite He. cbn. f_equal.
    destruct (lazy e && has_source e) eqn:E.
    - apply andb_true_iff in E as [Hl Hs].
      assert (∃ u, data_img e = Some u) as [u Hu].
      { unfold has_source in Hs. destruct (data_img e); [eauto | done]. }
      rewrite bool_decide_eq_true_2; [by rewrite Hu|].
      apply list_elem_of_fmap. exists (i, u). split; [done|].
      apply elem_of_scheduled. eauto 6.
    - rewrite bool_decide_eq_false_2; [done|].
      intros ([j u] & -> & (e' & He' & Hl & _ & Hs)%elem_of_scheduled)%list_elem_of_fmap.
      cbn [fst] in He. rewrite He in He'. injection He' as <-.
      by rewrite Hl, Hs in E. }
  split; [by rewrite init_without_observer|].
  split; [by rewrite init_without_observer|].
  split; [exact Hall|].
  intros i e u He Hl Hu Hne. exists (show_image css u e).
  rewrite (Hall i e He), Hl. unfold has_source. rewrite Hu. cbn [falsy negb andb default from_option].
  destruct (String.eqb_spec u ""); [done|]. cbn [negb id].
  split; [done|]. split; [|done].
  unfold loaded, show_image. cbn [classList]. apply contains_add_eq.
Qed.

Lemma eager_fallback_witness :
  sample_elements !! 0%nat = Some (mkElement true (Some "/img/cover.jpg") "" ["post-cover"])
  ∧ elements (runFrame sample_css (init (page_of sample_elements))) !! 0%nat =
      Some (mkElement true (Some "/img/cover.jpg")
              ("url(" ++ dquote ++ "/img/cover.jpg" ++ dquote ++ ")")%string
              ["post-cover"; "loaded"]).
Proof.
  split; [reflexivity|].
  destruct (eager_fallback sample_css sample_elements) as (_ & _ & H & _).
  exact (H 0%nat _ eq_refl).
Defined.

(** C3 as stated fails three times over.  Nothing is loaded when [init]
    returns, the work waits for the next animation frame.  A tagged
    element without a [data-img], or with an empty one, is never loaded:
    after the frame it still has no background image and no 'loaded'
    class.  And a tagged element whose [data-img] the browser cannot
    read inside [url(...)], here one with a space in it, gets the
    'loaded' class and no background image. *)
Lemma tagged_element_left_unloaded :
  elements (init (page_of sample_elements)) = sample_elements
  ∧ elements (runFrame sample_css (init (page_of sample_elements))) !! 2%nat
    = Some (mkElement true None "" ["post-cover"])
  ∧ elements (runFrame sample_css (init (page_of sample_elements))) !! 3%nat
    = Some (mkElement true (Some "") "" [])
  ∧ elements (runFrame sample_css (init (page_of sample_elements))) !! 4%nat
    = Some (mkElement true (Some "/img/my cover.jpg") "" ["post-cover"; "loaded"]).
Proof. vm_compute. repeat split. Qed.

End LazyLoaderFacts.

Module SmoothScrollFacts.
Import JsFacts SmoothScroll.

(** The link [closest] finds is an anchor whose [href] starts with "#". *)
Lemma closest_anchor path link :
  closest path = Some link →
  localName link = "a" ∧ ∃ h, href link = Some h ∧ String.prefix "#" h = true.
Proof.
  unfold closest. intros [_ H]%find_some. unfold matches_anchor in H.
  apply andb_true_iff in H as [Ht Hh]. apply String.eqb_eq in Ht.
  destruct (href link) as [h|]; [eauto | done].
Qed.

(** The click the listener lets go: a bare "#", or a selector that
    finds nothing. *)
Lemma target_not_found s path link h :
  closest path = Some link →
  href link = Some h →
  h = "#" ∨ querySelector s h = NotFound →
  onClick path s = mkRun [] s (Normal false).
Proof.
  intros Hc Hh Hmiss. unfold onClick. rewrite Hc, Hh. cbn [from_option]. unfold id.
  destruct (String.eqb_spec h "#") as [->|Hne]; [done|].
  destruct Hmiss as [->|Hq]; [done|].
  unfold mbind, M_bind, bind, inspect, ret. cbv beta zeta.
  cbn [completion final steps]. by rewrite Hq.
Qed.

(** A fragment that is no selector makes [querySelector] throw; the
    listener ends there, and has changed nothing either. *)
Lemma invalid_target_throws s path link h :
  closest path = Some link →
  href link = Some h →
  h ≠ "#" →
  querySelector s h = Invalid →
  onClick path s = mkRun [] s (Abrupt (DOMException "SyntaxError")).
Proof.
  intros Hc Hh Hne Hq. unfold onClick. rewrite Hc, Hh. cbn [from_option]. unfold id.
  destruct (String.eqb_spec h "#") as [->|_]; [done|].
  unfold mbind, M_bind, bind, inspect, ret. cbv beta zeta.
  cbn [completion final steps]. by rewrite Hq.
Qed.

(** A click outside any such link is none of the listener's business. *)
Lemma no_anchor_falls_through s path :
  closest path = None → onClick path s = mkRun [] s (Normal false).
Proof. intros Hc. unfold onClick. by rewrite Hc. Qed.

(** What the two guards of the listener achieve, for a click inside a
    same-page link.  If its [href] is the bare "#", or is a selector
    that finds no element, the listener returns at once.  If its
    [href] is no selector at all, the lookup throws before the guard
    is reached.  Either way, and so whenever the [href] leads to no
    element: [preventDefault] is not called, no scroll is requested, no
    URL is pushed, and the state is the one before the click. *)
Lemma missing_target_falls_through s path link h :
  closest path = Some link →
  href link = Some h →
  (h = "#" ∨ querySelector s h = NotFound →
   onClick path s = mkRun [] s (Normal false))
  ∧ (h ≠ "#" → querySelector s h = Invalid →
     onClick path s = mkRun [] s (Abrupt (DOMException "SyntaxError")))
  ∧ (h = "#" ∨ (∀ top, querySelector s h ≠ Found top) →
     final (onClick path s) = s
     ∧ steps (onClick path s) = []
     ∧ completion (onClick path s) ≠ Normal true).
Proof.
  intros Hc Hh. split; [exact (target_not_found s path link h Hc Hh)|].
  split; [exact (invalid_target_throws s path link h Hc Hh)|].
  intros Hmiss. destruct (String.eqb_spec h "#") as [->|Hne].
  { rewrite (target_not_found s path link "#" Hc Hh) by (by left). done. }
  destruct Hmiss as [?|Hmiss]; [done|].
  destruct (querySelector s h) as [top| |] eqn:Hq.
  - by destruct (Hmiss top).
  - rewrite (target_not_found s path link h Hc Hh) by (by right). done.
  - rewrite (invalid_target_throws s path link h Hc Hh Hne Hq). done.
Qed.

Example click_missing_target :
  closest (click_on "#missing") = Some (mkNode "a" (Some "#missing"))
  ∧ querySelector sample_page "#missing" = NotFound
  ∧ onClick (click_on "#missing") sample_page = mkRun [] sample_page (Normal false).
Proof. repeat split. Qed.

(** C6.  The listener means to let go of a click on a link whose
    fragment leads to no element: it tests the element it looked up
    and returns when there is none.  It looks the element up with
    [document.querySelector] on the raw [href], though, and on a link
    such as [<a href="#1">], whose fragment is no CSS selector, that
    lookup throws a SyntaxError before the test is reached.  For the
    click on this link in the sample page, where no element answers to
    the fragment: the listener does not return, it ends by the
    SyntaxError; it has not called [preventDefault], has not scrolled
    and has pushed no URL, and the state is the one before the click. *)
Theorem invalid_fragment_throws :
  closest (click_on "#1") = Some (mkNode "a" (Some "#1"))
  ∧ (∀ top, querySelector sample_page "#1" ≠ Found top)
  ∧ returns (onClick (click_on "#1") sample_page) = false
  ∧ onClick (click_on "#1") sample_page
    = mkRun [] sample_page (Abrupt (DOMException "SyntaxError")).
Proof. repeat split. intros top. discriminate. Qed.

Example click_existing_target :
  completion (onClick (click_on "#about") sample_page) = Normal true
  ∧ history (final (onClick (click_on "#about") sample_page)) = ["#about"]
  ∧ scrollTo_calls (final (onClick (click_on "#about") sample_page))
    = [(800 # 1) + (100 # 1) - (60 # 1) - (20 # 1)]%Q.
Proof. repeat split. Qed.

End SmoothScrollFacts.
Module CodeCopyFacts.
Import JsFacts CodeCopy.

Local Open Scope Z_scope.

(** The click in a page with a clipboard: the write is started, and
    that is all. *)
Lemma onClick_run s :
  ∃ tr,
    onClick true s =
      mkRun tr
        (mkState (textContent s) (classList s) (code s) (clipboard s)
           (console s) (now s) (timers s)
           (pending s ++ [or_default (code s) ""]))
        (Normal tt).
Proof. by eexists. Qed.

(** The listener going on from a write that was rejected, step by
    step: the [await] throws, the handler of the [try] logs, relabels
    and sets its timer. *)
Lemma onSettle_rejected_run s i text err :
  pending s !! i = Some text →
  ∃ tr,
    onSettle i (Rejected err) s =
      mkRun tr
        (mkState "Failed" (classList s) (code s) (clipboard s)
           (console s ++ [("Failed to copy:"%string, err)]) (now s)
           (timers s ++ [(now s + 2000, RevertFailed)])
           (delete i (pending s)))
        (Normal tt).
Proof.
  intros Hp. unfold onSettle, mbind, M_bind, bind, inspect, ret. cbv beta zeta.
  cbn [completion final steps]. rewrite Hp. by eexists.
Qed.

Lemma run_callback_label cb s : textContent (final (run_callback cb s)) = "Copy"%string.
Proof. by destruct cb. Qed.

(** Whatever timers fire, the label is 'Copy' after the last of them. *)
Lemma fired_label fired tm s :
  textContent
    (foldl (λ (s : State) (tm : Z * Callback), final (run_callback (snd tm) s))
       s (fired ++ [tm])) = "Copy"%string.
Proof. rewrite foldl_app. cbn [foldl]. apply run_callback_label. Qed.

Lemma filter_none_due t (tms : list (Z * Callback)) :
  Forall (λ tm, t < fst tm) tms → List.filter (due t) tms = [].
Proof.
  induction 1 as [|tm tms Htm _ IH]; [done|]. cbn.
  unfold due at 1. destruct (Z.leb_spec (fst tm) t); [lia | exact IH].
Qed.

(** Moving the clock changes the label only if a timer fires, and then
    the label is 'Copy'. *)
Lemma advance_label t s :
  textContent (advance t s) =
    if List.filter (due t) (timers s) is [] then textContent s else "Copy"%string.
Proof.
  unfold advance. cbv zeta.
  destruct (List.filter (due t) (timers s)) as [|tm fired] eqn:E using rev_ind;
    [done|].
  rewrite fired_label. by destruct fired.
Qed.

Lemma due_after_rejection s i text err t :
  pending s !! i = Some text →
  List.filter (due t) (timers (final (onSettle i (Rejected err) s))) =
    List.filter (due t) (timers s)
    ++ (if now s + 2000 <=? t then [(now s + 2000, RevertFailed)] else []).
Proof.
  intros Hp. destruct (onSettle_rejected_run s i text err Hp) as [tr ->].
  cbn [final timers]. by rewrite List.filter_app.
Qed.

(** C7, as amended.  The listener is an async function, and the click
    itself only starts the clipboard write: label, class, console and
    timers are as they were, and the write is awaited.  When that
    write is rejected, nothing is thrown out of the listener: the
    error is caught and logged, and the label reads 'Failed' from the
    rejection on, not from the click.  From 2000 ms after the
    rejection on, with nothing else happening to the button, the label
    reads 'Copy' again.  It reads 'Failed' throughout these 2000 ms
    provided no timer of an earlier click on the button falls due
    within them; such a timer is not cancelled and reverts the label
    early. *)
Theorem rejected_copy s i text err :
  pending s !! i = Some text →
  let r := onSettle i (Rejected err) s in
  (∀ s0, completion (onClick true s0) = Normal tt
         ∧ final (onClick true s0)
           = mkState (textContent s0) (classList s0) (code s0) (clipboard s0)
               (console s0) (now s0) (timers s0)
               (pending s0 ++ [or_default (code s0) ""]))
  ∧ completion r = Normal tt
  ∧ console (final r) = console s ++ [("Failed to copy:"%string, err)]
  ∧ textContent (final r) = "Failed"%string
  ∧ pending (final r) = delete i (pending s)
  ∧ (∀ t, now s + 2000 ≤ t → textContent (advance t (final r)) = "Copy"%string)
  ∧ (Forall (λ tm, now s + 2000 ≤ fst tm) (timers s) →
     ∀ t, now s ≤ t < now s + 2000 →
          textContent (advance t (final r)) = "Failed"%string).
Proof.
  intros Hp. cbv zeta.
  split; [|split; [|split; [|split; [|split; [|split]]]]].
  - intros s0. by destruct (onClick_run s0) as [tr ->].
  - by destruct (onSettle_rejected_run s i text err Hp) as [tr ->].
  - by destruct (onSettle_rejected_run s i text err Hp) as [tr ->].
  - by destruct (onSettle_rejected_run s i text err Hp) as [tr ->].
  - by destruct (onSettle_rejected_run s i text err Hp) as [tr ->].
  - intros t Ht. rewrite advance_label, (due_after_rejection s i text err t Hp).
    destruct (Z.leb_spec (now s + 2000) t) as [_|?]; [|lia].
    by destruct (List.filter (due t) (timers s)).
  - intros Hearlier t Ht.
    rewrite advance_label, (due_after_rejection s i text err t Hp).
    rewrite filter_none_due.
    + destruct (Z.leb_spec (now s + 2000) t) as [?|_]; [lia|].
      by destruct (onSettle_rejected_run s i text err Hp) as [tr ->].
    + eapply Forall_impl; [exact Hearlier|]. cbn. intros. lia.
Qed.

Lemma rejected_copy_witness :
  pending clicked !! 0%nat = Some "npm install"%string
  ∧ Forall (λ tm, now clicked + 2000 ≤ fst tm) (timers clicked)
  ∧ now clicked ≤ 1999 < now clicked + 2000
  ∧ textContent
      (advance 1999 (final (onSettle 0 (Rejected NotAllowedError) clicked)))
    = "Failed"%string.
Proof.
  assert (pending clicked !! 0%nat = Some "npm install"%string) as Hp
    by reflexivity.
  assert (Forall (λ tm, now clicked + 2000 ≤ fst tm) (timers clicked)) as H0
    by constructor.
  assert (now clicked ≤ 1999 < now clicked + 2000) as H1
    by (change (0 ≤ 1999 < 0 + 2000); lia).
  split; [exact Hp|]. split; [exact H0|]. split; [exact H1|].
  destruct (rejected_copy clicked 0%nat "npm install"%string NotAllowedError Hp)
    as (_ & _ & _ & _ & _ & _ & H).
  exact (H H0 1999 H1).
Defined.

(** C7 as stated fails when the rejection comes while the timer of an
    earlier copy is waiting.  A copy goes through at 0; at 1500 a
    second click starts a write, which is rejected there and then, and
    the label turns to 'Failed'; at 2000 the first timer fires and the
    label is back to 'Copy', 500 ms after the failure and 1500 ms
    before the timer of the failing click. *)
Lemma failed_label_reverts_early :
  now copied_1500_ago = 1500
  ∧ textContent copied_1500_ago = "Copied!"%string
  ∧ pending copied_1500_ago = ["npm install"%string]
  ∧ textContent
      (final (onSettle 0 (Rejected NotAllowedError) copied_1500_ago))
    = "Failed"%string
  ∧ textContent
      (advance 2000
         (final (onSettle 0 (Rejected NotAllowedError) copied_1500_ago)))
    = "Copy"%string
  ∧ timers
      (advance 2000
         (final (onSettle 0 (Rejected NotAllowedError) copied_1500_ago)))
    = [(3500, RevertFailed)].
Proof. vm_compute. repeat split. Qed.

(** Nor do the 2000 ms run from the click: a write rejected 700 ms
    after the click leaves the label at 'Copy' until then, and at
    'Failed' until 2700. *)
Example rejection_after_the_click :
  textContent (advance 700 clicked) = "Copy"%string
  ∧ textContent
      (advance 2699
         (final (onSettle 0 (Rejected NotAllowedError) (advance 700 clicked))))
    = "Failed"%string
  ∧ textContent
      (advance 2700
         (final (onSettle 0 (Rejected NotAllowedError) (advance 700 clicked))))
    = "Copy"%string.
Proof. vm_compute. repeat split. Qed.

(** Without a clipboard at all the same handler runs, on a TypeError,
    and in the click. *)
Lemma missing_clipboard_caught s :
  completion (onClick false s) = Normal tt
  ∧ textContent (final (onClick false s)) = "Failed"%string
  ∧ console (final (onClick false s))
    = console s ++ [("Failed to copy:"%string, TypeError)]
  ∧ pending (final (onClick false s)) = pending s.
Proof. done. Qed.

Example copy_then_revert :
  textContent (final (onSettle 0 Resolved clicked)) = "Copied!"%string
  ∧ classList (final (onSettle 0 Resolved clicked)) = ["copy-btn"; "copied"]%string
  ∧ advance 2000 (final (onSettle 0 Resolved clicked))
    = mkState "Copy" ["copy-btn"%string] (Some "npm install"%string)
        "npm install" [] 2000 [] [].
Proof. vm_compute. repeat split. Qed.

End CodeCopyFacts.

(** * Further properties *)

Module ThemeManagerMore.
Import DOMTokenList DOMTokenListFacts JsFacts ThemeManager ThemeManagerFacts.

(** X1.  Under an explicit choice, a stored preference that is neither
    absent nor 'auto', a change of the OS colour scheme is ignored: the
    event returns and leaves the classes of the root, the buttons and
    the storage as they were; only the media query itself has flipped. *)
Theorem explicit_choice_ignores_os s b :
  is_Some (localStorage s) →
  stored_auto s = false →
  returns (exec (ColorSchemeChange b) s) = true
  ∧ final (exec (ColorSchemeChange b) s) = set_prefersDark b s.
Proof.
  intros [m Hm] Hauto. cbn [exec].
  rewrite (bind_normal _ _ _ tt) by reflexivity. cbn [mutate steps final completion].
  rewrite (onColorSchemeChange_run b (set_prefersDark b s) m) by exact Hm.
  change (stored_auto (set_prefersDark b s)) with (stored_auto s). rewrite Hauto.
  done.
Qed.

Lemma explicit_choice_ignores_os_witness :
  is_Some (localStorage (final (setLightTheme page_with_buttons)))
  ∧ stored_auto (final (setLightTheme page_with_buttons)) = false
  ∧ html (final (exec (ColorSchemeChange true) (final (setLightTheme page_with_buttons))))
    = ["no-js"; "theme-light"].
Proof.
  assert (is_Some (localStorage (final (setLightTheme page_with_buttons)))) as Hs
    by (by eexists).
  assert (stored_auto (final (setLightTheme page_with_buttons)) = false) as Ha
    by (vm_compute; reflexivity).
  split; [exact Hs|]. split; [exact Ha|].
  destruct (explicit_choice_ignores_os _ true Hs Ha) as [_ ->].
  vm_compute. reflexivity.
Defined.

(** X2.  Each of [loadTheme] and the three setters writes the one key
    'theme' and nothing else in the storage, and the value it writes is
    one of 'theme-light', 'theme-dark' and 'auto'.  [loadTheme] keeps an
    explicit theme and rewrites anything else, a missing or an unknown
    value, to 'auto'. *)
Theorem storage_only_theme_key s m o :
  localStorage s = Some m →
  o ∈ theme_ops →
  ∃ v,
    localStorage (final (exec o s)) = Some (<["theme" := v]> m)
    ∧ v ∈ ["theme-light"; "theme-dark"; "auto"]
    ∧ (o = LoadTheme →
       v = if strict_eq (m !! "theme") "theme-light" then "theme-light"
           else if strict_eq (m !! "theme") "theme-dark" then "theme-dark"
           else "auto").
Proof.
  intros Hm Ho.
  destruct (setLightTheme_run s m Hm) as (trl & sl & El & _ & Hl).
  destruct (setDarkTheme_run s m Hm) as (trd & sd & Ed & _ & Hd).
  destruct (setAutoTheme_run s m Hm) as (tra & sa & Ea & _ & Ha).
  unfold theme_ops in Ho. rewrite !elem_of_cons, elem_of_nil in Ho.
  destruct Ho as [-> | [-> | [-> | [-> | []]]]]; cbn [exec].
  - rewrite (loadTheme_run s m Hm). cbv zeta. cbn [final].
    destruct (strict_eq (m !! "theme") "theme-light");
      [|destruct (strict_eq (m !! "theme") "theme-dark")].
    + exists "theme-light". rewrite El, Hl. cbn [final localStorage].
      split; [done|]. split; [by left | done].
    + exists "theme-dark". rewrite Ed, Hd. cbn [final localStorage].
      split; [done|]. split; [by right; left | done].
    + exists "auto". rewrite Ea, Ha. cbn [final localStorage].
      split; [done|]. split; [by right; right; left | done].
  - exists "theme-light". rewrite El, Hl. cbn [final localStorage].
    split; [done|]. split; [by left | done].
  - exists "theme-dark". rewrite Ed, Hd. cbn [final localStorage].
    split; [done|]. split; [by right; left | done].
  - exists "auto". rewrite Ea, Ha. cbn [final localStorage].
    split; [done|]. split; [by right; right; left | done].
Qed.

Lemma storage_only_theme_key_witness :
  localStorage page_with_buttons = Some {["theme" := "sepia"]}
  ∧ LoadTheme ∈ theme_ops
  ∧ ∃ v, localStorage (final (exec LoadTheme page_with_buttons))
         = Some (<["theme" := v]> {["theme" := "sepia"]})
         ∧ v ∈ ["theme-light"; "theme-dark"; "auto"].
Proof.
  assert (LoadTheme ∈ theme_ops) as Ho by (by left).
  split; [reflexivity|]. split; [exact Ho|].
  destruct (storage_only_theme_key page_with_buttons _ LoadTheme eq_refl Ho)
    as (v & Hv & Hin & _).
  exists v. split; [exact Hv | exact Hin].
Defined.

(** X3.  [loadTheme] is idempotent on a page whose storage works: a
    second load returns and leaves the state of the first. *)
Theorem loadTheme_idempotent s :
  is_Some (localStorage s) →
  returns (loadTheme (final (loadTheme s))) = true
  ∧ final (loadTheme (final (loadTheme s))) = final (loadTheme s).
Proof.
  intros [m Hm]. rewrite (loadTheme_run s m Hm). cbv zeta. cbn [final].
  destruct (strict_eq (m !! "theme") "theme-light");
    [|destruct (strict_eq (m !! "theme") "theme-dark")].
  - apply (load_after_setLight s m Hm).
  - apply (load_after_setDark s m Hm).
  - apply (load_after_setAuto s m Hm).
Qed.

Lemma loadTheme_idempotent_witness :
  is_Some (localStorage page_both_classes)
  ∧ final (loadTheme (final (loadTheme page_both_classes)))
    = final (loadTheme page_both_classes).
Proof.
  assert (is_Some (localStorage page_both_classes)) as Hs by (by eexists).
  split; [exact Hs|].
  destruct (loadTheme_idempotent page_both_classes Hs) as [_ H]. exact H.
Defined.

(** Refreshing the selector right after a setter changes nothing. *)
Lemma refresh_after_setter h lb db ab m pd c v :
  v ≠ "" →
  c = (if String.eqb v "theme-light" then Light
       else if String.eqb v "theme-dark" then Dark else Auto) →
  let s' := mkState h (mark Light c <$> lb) (mark Dark c <$> db)
              (mark Auto c <$> ab) (Some (<["theme" := v]> m)) pd in
  returns (updateActiveButton s') = true ∧ final (updateActiveButton s') = s'.
Proof.
  intros Hv Hc s'.
  destruct (updateActiveButton_run s' (<["theme" := v]> m) eq_refl)
    as (tr & s'' & -> & _ & ->).
  split; [done|]. cbn [final].
  assert (choice s' = c) as ->.
  { unfold s'. rewrite (choice_stored _ _ _ _ _ _ v); [done| |done].
    apply lookup_insert_eq. }
  unfold s'. cbn [html lightBtn darkBtn autoBtn prefersDark].
  by rewrite !mark_mark_fmap.
Qed.

(** X4.  [init] ends where its [loadTheme] ended: the refresh of the
    selector it runs after binding the listeners finds every button
    already as it should be and changes nothing. *)
Theorem init_is_loadTheme s :
  is_Some (localStorage s) →
  returns (init s) = true ∧ final (init s) = final (loadTheme s).
Proof.
  intros Hs. pose proof Hs as [m Hm].
  destruct (loadTheme_good s Hs) as (Hr%returns_normal & _ & _).
  unfold init. rewrite (bind_normal _ _ _ tt Hr).
  rewrite (bind_normal _ _ _ tt) by reflexivity.
  cbn [bindEvents mret M_ret ret final completion]. unfold returns. cbn [completion final].
  fold (returns (updateActiveButton (final (loadTheme s)))).
  rewrite (loadTheme_run s m Hm). cbv zeta. cbn [final].
  destruct (strict_eq (m !! "theme") "theme-light");
    [|destruct (strict_eq (m !! "theme") "theme-dark")].
  - destruct (setLightTheme_run s m Hm) as (tr & s' & -> & _ & ->).
    cbn [final]. by apply (refresh_after_setter _ _ _ _ m _ Light "theme-light").
  - destruct (setDarkTheme_run s m Hm) as (tr & s' & -> & _ & ->).
    cbn [final]. by apply (refresh_after_setter _ _ _ _ m _ Dark "theme-dark").
  - destruct (setAutoTheme_run s m Hm) as (tr & s' & -> & _ & ->).
    cbn [final]. by apply (refresh_after_setter _ _ _ _ m _ Auto "auto").
Qed.

Lemma init_is_loadTheme_witness :
  is_Some (localStorage page_with_buttons)
  ∧ final (init page_with_buttons) = final (loadTheme page_with_buttons).
Proof.
  assert (is_Some (localStorage page_with_buttons)) as Hs by (by eexists).
  split; [exact Hs|].
  destruct (init_is_loadTheme page_with_buttons Hs) as [_ H]. exact H.
Defined.

End ThemeManagerMore.

Module MobileMenuMore.
Import DOMTokenList DOMTokenListFacts JsFacts MobileMenu MobileMenuFacts.

Ltac run := MobileMenuFacts.run.

(** X5.  With the button on the page, [open] and [close] return and
    set all three marks together, whatever they were: after [open] the
    root has the visibility class, the button is active and
    aria-expanded is 'true'; after [close] none of the classes is there
    and aria-expanded is 'false'.  Closing an opened menu therefore
    always ends closed. *)
Theorem open_close_set_all s b :
  navBtn s = Some b →
  (returns (open s) = true
   ∧ shown (final (open s)) = true
   ∧ btn_active (final (open s)) = true
   ∧ expanded (final (open s)) = Some "true")
  ∧ (returns (close s) = true
     ∧ shown (final (close s)) = false
     ∧ btn_active (final (close s)) = false
     ∧ expanded (final (close s)) = Some "false")
  ∧ (returns ((open;; close) s) = true
     ∧ shown (final ((open;; close) s)) = false
     ∧ btn_active (final ((open;; close) s)) = false
     ∧ expanded (final ((open;; close) s)) = Some "false").
Proof.
  destruct s as [h nb nl]. intros Hb. cbn [navBtn] in Hb. subst nb.
  destruct b as [bc ae].
  split; [|split]; run; rewrite ?contains_add_eq, ?contains_remove_eq; done.
Qed.

Lemma open_close_set_all_witness :
  navBtn page_fresh = Some (mkButton ["navbar-btn"] None)
  ∧ expanded (final (open page_fresh)) = Some "true".
Proof.
  split; [reflexivity|].
  destruct (open_close_set_all page_fresh _ eq_refl) as ((_ & _ & _ & H) & _).
  exact H.
Defined.

(** X6.  One [toggle] flips the visibility class of the root and the
    'active' class of the button, each on its own, and writes the new
    visibility into aria-expanded.  So the two classes agree after a
    toggle exactly when they agreed before: a toggle keeps them in step
    but never brings them back into step. *)
Theorem toggle_flips s b :
  navBtn s = Some b →
  returns (toggle s) = true
  ∧ shown (final (toggle s)) = negb (shown s)
  ∧ btn_active (final (toggle s)) = negb (btn_active s)
  ∧ expanded (final (toggle s)) = Some (string_of_bool (negb (shown s)))
  ∧ (btn_active (final (toggle s)) = shown (final (toggle s))
     ↔ btn_active s = shown s).
Proof.
  destruct s as [h nb nl]. intros Hb. cbn [navBtn] in Hb. subst nb.
  destruct (toggle_run h b nl) as [tr ->].
  unfold returns, shown, btn_active, expanded.
  cbn [completion final html navBtn btnClassList ariaExpanded mbind option_bind].
  rewrite !toggle_spec, !bool_decide_eq_true_2 by done.
  repeat split; try done.
  - intros H. by destruct (contains "active" (btnClassList b)),
                           (contains "show-mobile-nav" h).
  - by intros ->.
Qed.

Lemma toggle_flips_witness :
  navBtn page_fresh = Some (mkButton ["navbar-btn"] None)
  ∧ shown (final (toggle page_fresh)) = negb (shown page_fresh).
Proof.
  split; [reflexivity|].
  destruct (toggle_flips page_fresh _ eq_refl) as (_ & H & _).
  exact H.
Defined.

(** X7.  On the toggle button, Enter and Space do what a click does and
    call [preventDefault]; any other key but Escape does nothing at all. *)
Theorem button_keys s b key :
  navBtn s = Some b →
  ((key = "Enter" ∨ key = " ") →
   completion (dispatch (Keydown OnNavBtn key) s) = Normal true
   ∧ final (dispatch (Keydown OnNavBtn key) s) = final (dispatch (Click OnNavBtn) s))
  ∧ (key ≠ "Enter" → key ≠ " " → key ≠ "Escape" →
     dispatch (Keydown OnNavBtn key) s = mkRun [] s (Normal false)).
Proof.
  destruct s as [h nb nl]. intros Hb. cbn [navBtn] in Hb. subst nb.
  destruct b as [bc ae]. split.
  - intros [-> | ->]; by run.
  - intros H1 H2 H3. unfold dispatch, navBtn_onKeydown, document_onKeydown.
    cbn [navBtn].
    destruct (String.eqb_spec key "Enter"); [done|].
    destruct (String.eqb_spec key " "); [done|].
    destruct (String.eqb_spec key "Escape"); [done|].
    by run.
Qed.

Lemma button_keys_witness :
  navBtn page_fresh = Some (mkButton ["navbar-btn"] None)
  ∧ ("Enter" = "Enter" ∨ "Enter" = " ")
  ∧ completion (dispatch (Keydown OnNavBtn "Enter") page_fresh) = Normal true.
Proof.
  split; [reflexivity|]. split; [by left|].
  destruct (button_keys page_fresh _ "Enter" eq_refl) as [H _].
  destruct (H (or_introl eq_refl)) as [Hc _]. exact Hc.
Defined.

(** X8.  While the menu is closed, neither the Escape key nor a click
    inside the navigation list changes anything; and while it is open, a
    click in the list on an element that is not itself a link, such as
    an icon inside one, does not close it. *)
Theorem no_close_without_cause s b :
  navBtn s = Some b →
  (shown s = false →
   (∀ t, dispatch (Keydown t "Escape") s = mkRun [] s (Normal false))
   ∧ (∀ tag, dispatch (Click (InNavList tag)) s = mkRun [] s (Normal false)))
  ∧ (∀ tag, tag ≠ "A" →
       dispatch (Click (InNavList tag)) s = mkRun [] s (Normal false)).
Proof.
  destruct s as [h nb nl]. intros Hb. cbn [navBtn] in Hb. subst nb.
  destruct b as [bc ae]. unfold shown. cbn [html]. split.
  - intros Hshown. split.
    + intros t. destruct t; run; by rewrite Hshown.
    + intros tag. unfold dispatch, navList_onClick. cbn [navBtn navList].
      destruct nl; [|done]. unfold html_contains, mbind, M_bind, bind, inspect, ret.
      cbv beta zeta. cbn [completion final steps html].
      rewrite Hshown, andb_false_r. done.
  - intros tag Htag. unfold dispatch, navList_onClick. cbn [navBtn navList].
    destruct nl; [|done].
    destruct (String.eqb_spec tag "A"); [done|]. by run.
Qed.

Lemma no_close_without_cause_witness :
  navBtn page_open = Some (mkButton ["navbar-btn"; "active"] (Some "true"))
  ∧ "SPAN" ≠ "A"
  ∧ dispatch (Click (InNavList "SPAN")) page_open = mkRun [] page_open (Normal false).
Proof.
  assert ("SPAN" ≠ "A") as Hne by discriminate.
  split; [reflexivity|]. split; [exact Hne|].
  destruct (no_close_without_cause page_open _ eq_refl) as [_ H].
  exact (H "SPAN" Hne).
Defined.

End MobileMenuMore.

Module ScrollMore.
Import DOMTokenList DOMTokenListFacts JsFacts BackToTopFacts.

Local Open Scope Q_scope.

Lemma num_or_eq_zero a b : BackToTop.num_or a b == 0 ↔ a == 0 ∧ b == 0.
Proof.
  unfold BackToTop.num_or. destruct (Qeq_bool a 0) eqn:E.
  - apply Qeq_bool_iff in E. tauto.
  - apply Qeq_bool_neq in E. tauto.
Qed.

(** X9.  [getScrollTop] reads the first of [window.pageYOffset],
    [documentElement.scrollTop] and [body.scrollTop] that is not zero, in
    that order, and is zero exactly when all three are. *)
Theorem getScrollTop_first_nonzero s :
  (¬ BackToTop.pageYOffset s == 0 →
   BackToTop.getScrollTop s = BackToTop.pageYOffset s)
  ∧ (BackToTop.pageYOffset s == 0 →
     ¬ BackToTop.documentElement_scrollTop s == 0 →
     BackToTop.getScrollTop s = BackToTop.documentElement_scrollTop s)
  ∧ (BackToTop.pageYOffset s == 0 →
     BackToTop.documentElement_scrollTop s == 0 →
     ¬ BackToTop.body_scrollTop s == 0 →
     BackToTop.getScrollTop s = BackToTop.body_scrollTop s)
  ∧ (BackToTop.getScrollTop s == 0 ↔
     BackToTop.pageYOffset s == 0
     ∧ BackToTop.documentElement_scrollTop s == 0
     ∧ BackToTop.body_scrollTop s == 0).
Proof.
  unfold BackToTop.getScrollTop. split; [|split; [|split]].
  - intros H. unfold BackToTop.num_or at 1.
    destruct (Qeq_bool (BackToTop.pageYOffset s) 0) eqn:E; [|done].
    by apply Qeq_bool_iff in E.
  - intros H0 H1. apply Qeq_bool_iff in H0. unfold BackToTop.num_or at 1 2.
    rewrite H0.
    destruct (Qeq_bool (BackToTop.documentElement_scrollTop s) 0) eqn:E; [|done].
    by apply Qeq_bool_iff in E.
  - intros H0 H1 H2. apply Qeq_bool_iff in H0, H1. unfold BackToTop.num_or.
    rewrite H0, H1.
    destruct (Qeq_bool (BackToTop.body_scrollTop s) 0) eqn:E; [|done].
    by apply Qeq_bool_iff in E.
  - rewrite !num_or_eq_zero. split.
    + intros (? & ? & ? & _). tauto.
    + intros (? & ? & ?). by repeat split.
Qed.

Lemma getScrollTop_first_nonzero_witness :
  BackToTop.pageYOffset (BackToTop.mkState 0 (120 # 1) (7 # 1) None) == 0
  ∧ ¬ BackToTop.documentElement_scrollTop
        (BackToTop.mkState 0 (120 # 1) (7 # 1) None) == 0
  ∧ BackToTop.getScrollTop (BackToTop.mkState 0 (120 # 1) (7 # 1) None) = 120 # 1.
Proof.
  assert (BackToTop.pageYOffset (BackToTop.mkState 0 (120 # 1) (7 # 1) None) == 0)
    as H0 by reflexivity.
  assert (¬ BackToTop.documentElement_scrollTop
              (BackToTop.mkState 0 (120 # 1) (7 # 1) None) == 0) as H1
    by (intros H; discriminate H).
  split; [exact H0|]. split; [exact H1|].
  destruct (getScrollTop_first_nonzero (BackToTop.mkState 0 (120 # 1) (7 # 1) None))
    as (_ & H & _).
  exact (H H0 H1).
Defined.

Import NavbarScroll.

Lemma num_gt_iff a b : num_gt a b = true ↔ b < a.
Proof.
  unfold num_gt. rewrite negb_true_iff. split.
  - intros H. apply Qnot_le_lt. intros Hle. apply Qle_bool_iff in Hle. congruence.
  - intros H. destruct (Qle_bool a b) eqn:E; [|done].
    apply Qle_bool_iff in E. by apply Qlt_not_le in H.
Qed.

Lemma checkScroll_run s l :
  navbar s = Some l →
  checkScroll s =
    let l' := if num_gt (BackToTop.getScrollTop (page s)) scrollThreshold
              then add "scrolled" l else remove "scrolled" l in
    mkRun [mkState (page s) (Some l')] (mkState (page s) (Some l')) (Normal tt).
Proof.
  intros Hl. unfold checkScroll, inspect, on_navbar.
  unfold mbind, M_bind, bind, ret. cbv beta zeta. cbn [completion final steps].
  destruct (num_gt (BackToTop.getScrollTop (page s)) scrollThreshold); by rewrite Hl.
Qed.

Lemma scrolled_after_check s l :
  navbar s = Some l →
  returns (checkScroll s) = true
  ∧ page (final (checkScroll s)) = page s
  ∧ scrolled (final (checkScroll s))
    = num_gt (BackToTop.getScrollTop (page s)) scrollThreshold.
Proof.
  intros Hl. rewrite (checkScroll_run s l Hl). cbv zeta.
  unfold returns, scrolled. cbn [completion final navbar page].
  split; [done|]. split; [done|].
  destruct (num_gt (BackToTop.getScrollTop (page s)) scrollThreshold).
  - by rewrite contains_add_eq.
  - by rewrite contains_remove_eq.
Qed.

Lemma visible_after_check p l :
  BackToTop.btn p = Some l →
  BackToTop.getScrollTop (final (BackToTop.checkVisibility p)) = BackToTop.getScrollTop p
  ∧ BackToTop.visible (final (BackToTop.checkVisibility p))
    = Qle_bool BackToTop.showThreshold (BackToTop.getScrollTop p).
Proof.
  intros Hl. rewrite (checkVisibility_run p l Hl). cbv zeta.
  unfold BackToTop.visible. cbn [final BackToTop.btn]. split; [done|].
  destruct (Qle_bool BackToTop.showThreshold (BackToTop.getScrollTop p)).
  - by rewrite contains_add_eq.
  - by rewrite contains_remove_eq.
Qed.

(** X10.  With the navbar on the page, [checkScroll] returns, and the
    navbar carries the 'scrolled' class afterwards if and only if the
    scroll offset is more than 50; at exactly 50 it does not. *)
Theorem checkScroll_threshold s l :
  navbar s = Some l →
  returns (checkScroll s) = true
  ∧ (scrolled (final (checkScroll s)) = true
     ↔ 50 # 1 < BackToTop.getScrollTop (page s)).
Proof.
  intros Hl. destruct (scrolled_after_check s l Hl) as (Hr & _ & ->).
  split; [exact Hr|]. apply num_gt_iff.
Qed.

Lemma checkScroll_threshold_witness :
  navbar (page_at (50 # 1)) = Some ["navbar"%string]
  ∧ (scrolled (final (checkScroll (page_at (50 # 1)))) = true
     ↔ 50 # 1 < BackToTop.getScrollTop (page (page_at (50 # 1)))).
Proof.
  split; [reflexivity|].
  destruct (checkScroll_threshold (page_at (50 # 1)) _ eq_refl) as [_ H].
  exact H.
Defined.

Example not_scrolled_at_50 :
  scrolled (final (checkScroll (page_at (50 # 1)))) = false
  ∧ scrolled (final (checkScroll (page_at (501 # 10)))) = true.
Proof. vm_compute. done. Qed.

(** X11.  When one scroll event runs both checks, the back-to-top
    control is never visible over a navbar that is not marked as
    scrolled: both read the same offset, and 300 is more than 50. *)
Theorem visible_implies_scrolled s lb ln :
  BackToTop.btn (page s) = Some lb →
  navbar s = Some ln →
  returns (onScroll s) = true
  ∧ (BackToTop.visible (page (final (onScroll s))) = true →
     scrolled (final (onScroll s)) = true).
Proof.
  intros Hb Hn. unfold onScroll.
  assert (on_page BackToTop.checkVisibility s =
          mkRun ((λ p, mkState p (navbar s)) <$> steps (BackToTop.checkVisibility (page s)))
                (mkState (final (BackToTop.checkVisibility (page s))) (navbar s))
                (Normal tt)) as E.
  { unfold on_page. cbv zeta. by rewrite (checkVisibility_run (page s) lb Hb). }
  rewrite (bind_normal _ _ _ tt) by (by rewrite E).
  rewrite E. cbn [final steps completion].
  set (s1 := mkState _ _).
  destruct (scrolled_after_check s1 ln Hn) as (Hr & Hp & Hsc).
  destruct (visible_after_check (page s) lb Hb) as (Htop & Hvis).
  unfold returns in *. cbn [completion final].
  split; [exact Hr|]. rewrite Hp, Hsc. unfold s1. cbn [page]. rewrite Hvis, Htop.
  intros Hv%Qle_bool_iff. apply num_gt_iff.
  eapply Qlt_le_trans; [|exact Hv]. reflexivity.
Qed.

Lemma visible_implies_scrolled_witness :
  BackToTop.btn (page (page_at (420 # 1))) = Some ["back-to-top-fixed"%string]
  ∧ navbar (page_at (420 # 1)) = Some ["navbar"%string]
  ∧ returns (onScroll (page_at (420 # 1))) = true.
Proof.
  split; [reflexivity|]. split; [reflexivity|].
  destruct (visible_implies_scrolled (page_at (420 # 1)) _ _ eq_refl eq_refl)
    as [H _].
  exact H.
Defined.

(** X12.  [init] of the back-to-top control and of the navbar never
    throw: with the element on the page they run the first check, and
    without it they return at once and leave everything as it is, where
    the check itself would have thrown a TypeError. *)
Theorem init_guards :
  (∀ s, returns (BackToTop.init s) = true
        ∧ (BackToTop.btn s = None →
           BackToTop.init s = mkRun [] s (Normal tt)
           ∧ completion (BackToTop.checkVisibility s) = Abrupt TypeError))
  ∧ (∀ s, returns (init s) = true
          ∧ (navbar s = None →
             init s = mkRun [] s (Normal tt)
             ∧ completion (checkScroll s) = Abrupt TypeError)).
Proof.
  split; intros s.
  - unfold BackToTop.init. destruct (BackToTop.btn s) as [l|] eqn:Hb.
    + split; [|done]. rewrite (bind_normal _ _ _ tt) by reflexivity.
      cbn [BackToTop.bindEvents mret M_ret ret final].
      unfold returns. cbn [completion]. by rewrite (checkVisibility_run s l Hb).
    + split; [done|]. intros _. split; [done|].
      unfold BackToTop.checkVisibility, BackToTop.on_btn, inspect.
      unfold mbind, M_bind, bind, ret. cbv beta zeta. cbn [completion final steps].
      destruct (Qle_bool _ _); by rewrite Hb.
  - unfold init. destruct (navbar s) as [l|] eqn:Hb.
    + split; [|done]. rewrite (bind_normal _ _ _ tt) by reflexivity.
      cbn [bindEvents mret M_ret ret final].
      unfold returns. cbn [completion]. by rewrite (checkScroll_run s l Hb).
    + split; [done|]. intros _. split; [done|].
      unfold checkScroll, on_navbar, inspect.
      unfold mbind, M_bind, bind, ret. cbv beta zeta. cbn [completion final steps].
      destruct (num_gt _ _); by rewrite Hb.
Qed.

Lemma init_guards_witness :
  BackToTop.btn (BackToTop.mkState 0 0 0 None) = None
  ∧ BackToTop.init (BackToTop.mkState 0 0 0 None)
    = mkRun [] (BackToTop.mkState 0 0 0 None) (Normal tt).
Proof.
  split; [reflexivity|].
  destruct init_guards as [H _].
  destruct (H (BackToTop.mkState 0 0 0 None)) as [_ H'].
  destruct (H' eq_refl) as [Hi _]. exact Hi.
Defined.

End ScrollMore.

Module ThrottleFacts.
Import Timers Throttle.

Local Open Scope Z_scope.



Section Facts.
Context {A : Type} (limit : Z).




Hypothesis limit_positive : 0 < limit.



End Facts.



(** With a limit of 0 the reset is still a timer, and does not run
    inside the task that set it: a second call at the same time is
    dropped, the next one goes through. *)
Example throttle_zero_limit :
  calls (run 0 [(5, "a"); (5, "b"); (6, "c")]) = [(5, "a"); (6, "c")]
  ∧ calls (run (-50) [(5, "a"); (5, "b"); (6, "c")]) = [(5, "a"); (6, "c")].
Proof. by split. Qed.

End ThrottleFacts.

Module DebounceFacts.
Import Timers Debounce.

Local Open Scope Z_scope.

Section Facts.
Context {A : Type} (wait : Z).










End Facts.



Example debounce_two_bursts :
  calls (tick 1000 (run 250 [(0, "a"); (400, "b")]))
  = [(250, "a"); (650, "b")].
Proof. reflexivity. Qed.

(** A negative [wait] is a [wait] of 0: [func] runs at the time of the
    call, in a task after it, and not before. *)
Example debounce_negative_wait :
  calls (tick 99 (run (-50) [(100, "a")])) = []
  ∧ calls (run (-50) [(100, "a")]) = []
  ∧ calls (tick 100 (run (-50) [(100, "a")])) = []
  ∧ calls (tick 101 (run (-50) [(100, "a")])) = [(100, "a")].
Proof. by repeat split. Qed.

End DebounceFacts.

Module CodeCopyMore.
Import DOMTokenList DOMTokenListFacts JsFacts CodeCopy CodeCopyFacts CodeCopySession.

Local Open Scope Z_scope.

Lemma fired_timers fired : ∀ s, timers (foldl fire s fired) = timers s.
Proof.
  induction fired as [|[d cb] fired IH]; intros s; [done|].
  cbn [foldl]. rewrite IH. by destruct cb.
Qed.

(** Of the timers that fire, only those of a successful copy touch the
    class list: they take 'copied' off. *)
Lemma fired_classList fired : ∀ s,
  classList (foldl fire s fired) =
    if existsb is_RevertCopied fired
    then remove "copied" (classList s) else classList s.
Proof.
  induction fired as [|[d cb] fired IH]; intros s; [done|].
  cbn [foldl existsb]. rewrite IH. destruct cb; cbn.
  - destruct (existsb is_RevertCopied fired); [apply remove_remove | done].
  - done.
Qed.

Lemma existsb_split {X} (p q : X → bool) l :
  existsb p l = existsb p (List.filter q l)
                || existsb p (List.filter (λ x, negb (q x)) l).
Proof.
  induction l as [|x l IH]; [done|]. cbn [existsb List.filter]. rewrite IH.
  set (a := existsb p (List.filter q l)).
  set (b := existsb p (List.filter (λ x, negb (q x)) l)).
  destruct (q x); cbn [negb existsb]; fold a b; by destruct (p x), a, b.
Qed.

Lemma filter_none_all {X} (q : X → bool) l :
  List.filter q l = [] → List.filter (λ x, negb (q x)) l = l.
Proof.
  induction l as [|x l IH]; [done|]. cbn. destruct (q x); [done|].
  intros H. cbn. by rewrite IH.
Qed.

Lemma advance_timers t s :
  timers (advance t s) = List.filter (λ tm, negb (due t tm)) (timers s).
Proof.
  exact (fired_timers (List.filter (due t) (timers s))
           (mkState (textContent s) (classList s) (code s) (clipboard s)
              (console s) (Z.max (now s) t)
              (List.filter (λ tm, negb (due t tm)) (timers s)) (pending s))).
Qed.

Lemma advance_classList t s :
  classList (advance t s) =
    if existsb is_RevertCopied (List.filter (due t) (timers s))
    then remove "copied" (classList s) else classList s.
Proof.
  exact (fired_classList (List.filter (due t) (timers s))
           (mkState (textContent s) (classList s) (code s) (clipboard s)
              (console s) (Z.max (now s) t)
              (List.filter (λ tm, negb (due t tm)) (timers s)) (pending s))).
Qed.

Lemma onSettle_resolved_run s i text :
  pending s !! i = Some text →
  ∃ tr,
    onSettle i Resolved s =
      mkRun tr
        (mkState "Copied!" (add "copied" (classList s)) (code s)
           text (console s) (now s)
           (timers s ++ [(now s + 2000, RevertCopied)])
           (delete i (pending s)))
        (Normal tt).
Proof.
  intros Hp. unfold onSettle, mbind, M_bind, bind, inspect, ret. cbv beta zeta.
  cbn [completion final steps]. rewrite Hp. by eexists.
Qed.

Lemma onSettle_none_run s i o :
  pending s !! i = None → onSettle i o s = mkRun [] s (Normal tt).
Proof.
  intros Hp. unfold onSettle, mbind, M_bind, bind, inspect, ret. cbv beta zeta.
  cbn [completion final steps]. by rewrite Hp.
Qed.

Lemma onClick_missing_run s :
  ∃ tr,
    onClick false s =
      mkRun tr
        (mkState "Failed" (classList s) (code s) (clipboard s)
           (console s ++ [("Failed to copy:"%string, TypeError)]) (now s)
           (timers s ++ [(now s + 2000, RevertFailed)]) (pending s))
        (Normal tt).
Proof. by eexists. Qed.

Lemma step_covered e s : covered s → covered (step e s).
Proof.
  intros [Hlabel Hclass]. destruct e as [[|]|i o|t]; cbn [step].
  - by destruct (onClick_run s) as [tr ->].
  - destruct (onClick_missing_run s) as [tr ->]. split; cbn.
    + intros _. by destruct (timers s).
    + intros H. rewrite existsb_app, (Hclass H). done.
  - destruct (pending s !! i) as [text|] eqn:Hp.
    2:{ by rewrite (onSettle_none_run s i o Hp). }
    destruct o as [|err].
    + destruct (onSettle_resolved_run s i text Hp) as [tr ->]. split; cbn.
      * intros _. by destruct (timers s).
      * intros _. rewrite existsb_app. cbn. apply orb_true_r.
    + destruct (onSettle_rejected_run s i text err Hp) as [tr ->]. split; cbn.
      * intros _. by destruct (timers s).
      * intros H. rewrite existsb_app, (Hclass H). done.
  - split.
    + rewrite advance_label, advance_timers.
      destruct (List.filter (due t) (timers s)) eqn:E; [|done].
      rewrite (filter_none_all _ _ E). exact Hlabel.
    + rewrite advance_classList, advance_timers.
      destruct (existsb is_RevertCopied (List.filter (due t) (timers s))) eqn:E.
      * by rewrite contains_remove_eq.
      * intros H. specialize (Hclass H).
        rewrite (existsb_split _ (due t)), E in Hclass. exact Hclass.
Qed.

Lemma run_covered evs : ∀ s, covered s → covered (run evs s).
Proof.
  induction evs as [|e evs IH]; intros s Hs; [done|].
  apply IH, step_covered, Hs.
Qed.

(** X16.  A copy button always comes back to rest.  Take the button as
    [addCopyButton] makes it and let any clicks follow, with writes
    that go through and writes that are rejected, settling whenever
    they do, and with time passing in between in any way: whenever no
    timer is left waiting, the label reads 'Copy' and the 'copied'
    class is off. *)
Theorem button_comes_to_rest code clip t0 evs :
  timers (run evs (fresh code clip t0)) = [] →
  at_rest (run evs (fresh code clip t0)).
Proof.
  intros Hnone.
  destruct (run_covered evs (fresh code clip t0)) as [Hlabel Hclass].
  { split; [done|]. cbn. done. }
  rewrite Hnone in Hlabel, Hclass. split.
  - destruct (decide (textContent (run evs (fresh code clip t0)) = "Copy"%string))
      as [?|Hne]; [done|]. by destruct (Hlabel Hne).
  - destruct (contains "copied" (classList (run evs (fresh code clip t0))));
      [|done]. by specialize (Hclass eq_refl).
Qed.

Lemma button_comes_to_rest_witness :
  timers (run [Click true; Settle 0 Resolved; Advance 1500; Click true;
               Advance 1700; Settle 0 (Rejected NotAllowedError);
               Advance 3700] (fresh (Some "ls"%string) ""%string 0)) = []
  ∧ at_rest (run [Click true; Settle 0 Resolved; Advance 1500; Click true;
                  Advance 1700; Settle 0 (Rejected NotAllowedError);
                  Advance 3700] (fresh (Some "ls"%string) ""%string 0)).
Proof.
  assert (timers (run [Click true; Settle 0 Resolved; Advance 1500; Click true;
               Advance 1700; Settle 0 (Rejected NotAllowedError);
               Advance 3700] (fresh (Some "ls"%string) ""%string 0)) = []) as H
    by reflexivity.
  split; [exact H|].
  exact (button_comes_to_rest _ _ _ _ H).
Defined.

(** X17.  A click in a page with a clipboard starts a write of the
    text of the block's code element, the empty string when there is
    none, and changes nothing else.  When a write that is awaited goes
    through, its text is on the clipboard, nothing is logged, and the
    button shows 'Copied!' with the 'copied' class, from then and not
    from the click.  From 2000 ms after that on, with nothing else
    happening to the button, the label reads 'Copy' and the class is
    off; until then both stay, provided no timer of an earlier click
    falls due within these 2000 ms. *)
Theorem resolved_copy s i text :
  pending s !! i = Some text →
  let r := onSettle i Resolved s in
  (∀ s0, completion (onClick true s0) = Normal tt
         ∧ final (onClick true s0)
           = mkState (textContent s0) (classList s0) (code s0) (clipboard s0)
               (console s0) (now s0) (timers s0)
               (pending s0 ++ [or_default (code s0) ""]))
  ∧ completion r = Normal tt
  ∧ clipboard (final r) = text
  ∧ console (final r) = console s
  ∧ textContent (final r) = "Copied!"%string
  ∧ contains "copied" (classList (final r)) = true
  ∧ pending (final r) = delete i (pending s)
  ∧ (∀ t, now s + 2000 ≤ t →
       textContent (advance t (final r)) = "Copy"%string
       ∧ contains "copied" (classList (advance t (final r))) = false)
  ∧ (Forall (λ tm, now s + 2000 ≤ fst tm) (timers s) →
     ∀ t, now s ≤ t < now s + 2000 →
       textContent (advance t (final r)) = "Copied!"%string
       ∧ contains "copied" (classList (advance t (final r))) = true).
Proof.
  intros Hp. split.
  { intros s0. by destruct (onClick_run s0) as [tr ->]. }
  destruct (onSettle_resolved_run s i text Hp) as [tr ->]. cbv zeta.
  cbn [completion final clipboard console textContent classList pending].
  split; [done|]. split; [done|]. split; [done|]. split; [done|].
  split; [apply contains_add_eq|]. split; [done|]. split.
  - intros t Ht. rewrite advance_label, advance_classList. cbn [timers textContent classList].
    rewrite List.filter_app. cbn [List.filter]. unfold due at 2 4. cbn [fst].
    destruct (Z.leb_spec (now s + 2000) t) as [_|?]; [|lia].
    rewrite existsb_app. cbn. rewrite orb_true_r, contains_remove_eq.
    split; [|done]. by destruct (List.filter (due t) (timers s)).
  - intros Hearlier t Ht. rewrite advance_label, advance_classList.
    cbn [timers textContent classList].
    rewrite List.filter_app, filter_none_due.
    + cbn [List.filter app]. unfold due. cbn [fst].
      destruct (Z.leb_spec (now s + 2000) t) as [?|_]; [lia|].
      cbn. split; [done | apply contains_add_eq].
    + eapply Forall_impl; [exact Hearlier|]. cbn. intros. lia.
Qed.

Lemma resolved_copy_witness :
  pending clicked !! 0%nat = Some "npm install"%string
  ∧ Forall (λ tm, now clicked + 2000 ≤ fst tm) (timers clicked)
  ∧ now clicked ≤ 1999 < now clicked + 2000
  ∧ clipboard (final (onSettle 0 Resolved clicked)) = "npm install"%string
  ∧ textContent (advance 1999 (final (onSettle 0 Resolved clicked)))
    = "Copied!"%string.
Proof.
  assert (pending clicked !! 0%nat = Some "npm install"%string) as Hp
    by reflexivity.
  assert (Forall (λ tm, now clicked + 2000 ≤ fst tm) (timers clicked)) as H0
    by constructor.
  assert (now clicked ≤ 1999 < now clicked + 2000) as H1
    by (change (0 ≤ 1999 < 0 + 2000); lia).
  split; [exact Hp|]. split; [exact H0|]. split; [exact H1|].
  destruct (resolved_copy clicked 0%nat "npm install"%string Hp)
    as (_ & _ & Hc & _ & _ & _ & _ & _ & H).
  split; [exact Hc|].
  destruct (H H0 1999 H1) as [Hl _]. exact Hl.
Defined.

End CodeCopyMore.

Module LazyLoaderMore.
Import DOMTokenList DOMTokenListFacts LazyLoader LazyLoaderFacts LazyLoaderObserver.







Example observer_run :
  observed (init (page_of sample_elements)) = [0; 2; 3; 4]%nat
  ∧ observed (onIntersection [(0%nat, true); (2%nat, false)]
                (init (page_of sample_elements))) = [2; 3; 4]%nat
  ∧ frames (onIntersection [(0%nat, true); (2%nat, false)]
              (init (page_of sample_elements))) = [(0%nat, "/img/cover.jpg")].
Proof. vm_compute. done. Qed.

End LazyLoaderMore.

Module SmoothScrollMore.
Import JsFacts SmoothScroll SmoothScrollFacts.

(** The click on a link whose target is on the page, step by step. *)
Lemma onClick_found s path link h top :
  closest path = Some link →
  href link = Some h →
  h ≠ "#" →
  querySelector s h = Found top →
  ∃ tr,
    onClick path s =
      mkRun tr
        (mkState (querySelector s) (navbar_offsetHeight s) (pageYOffset s)
           (plus s) (minus s)
           (scrollTo_calls s ++ [targetPosition s top])
           (history s ++ [h]))
        (Normal true).
Proof.
  intros Hc Hh Hne Hq. unfold onClick. rewrite Hc, Hh. cbn [from_option]. unfold id.
  destruct (String.eqb_spec h "#"); [done|].
  unfold mbind, M_bind, bind, inspect, ret. cbv beta zeta.
  cbn [completion final steps]. rewrite Hq. cbv beta zeta.
  unfold scrollTo, pushState, mutate. cbv beta zeta.
  cbn [completion final steps querySelector navbar_offsetHeight pageYOffset
       plus minus scrollTo_calls history].
  by eexists.
Qed.

(** X19.  The listener changes the page exactly when it takes the
    click over.  If it calls [preventDefault], the click was inside a
    link whose [href] starts with "#", is not the bare "#" and names an
    element of the page; one scroll has been requested, to the position
    the engine computes from the top of that element plus the page
    offset, less the navbar height (none for no navbar) and 20; and
    that [href] is the one URL pushed.  In every other case, a normal
    return or a throw, nothing has changed. *)
Theorem click_outcomes path s :
  (completion (onClick path s) = Normal true →
   ∃ link h top,
     closest path = Some link ∧ href link = Some h
     ∧ String.prefix "#" h = true ∧ h ≠ "#"
     ∧ querySelector s h = Found top
     ∧ scrollTo_calls (final (onClick path s))
       = scrollTo_calls s
         ++ [minus s
               (minus s (plus s top (pageYOffset s))
                  (num_or_zero (navbar_offsetHeight s)))
               (20 # 1)]
     ∧ history (final (onClick path s)) = history s ++ [h])
  ∧ (completion (onClick path s) ≠ Normal true →
     final (onClick path s) = s ∧ steps (onClick path s) = []).
Proof.
  destruct (closest path) as [link|] eqn:Hc.
  2:{ rewrite (no_anchor_falls_through s path Hc). by split. }
  destruct (closest_anchor path link Hc) as (_ & h & Hh & Hprefix).
  destruct (String.eqb_spec h "#") as [->|Hne].
  { rewrite (target_not_found s path link "#" Hc Hh) by (by left).
    by split. }
  destruct (querySelector s h) as [top| |] eqn:Hq.
  - destruct (onClick_found s path link h top Hc Hh Hne Hq) as [tr ->].
    cbn [completion final scrollTo_calls history]. split; [|done].
    intros _. by exists link, h, top.
  - rewrite (target_not_found s path link h Hc Hh) by (by right).
    by split.
  - rewrite (invalid_target_throws s path link h Hc Hh Hne Hq). by split.
Qed.

Lemma click_outcomes_witness :
  completion (onClick (click_on "#about") sample_page) = Normal true
  ∧ ∃ link h top,
      closest (click_on "#about") = Some link ∧ href link = Some h
      ∧ history (final (onClick (click_on "#about") sample_page))
        = history sample_page ++ [h]
      ∧ querySelector sample_page h = Found top.
Proof.
  assert (completion (onClick (click_on "#about") sample_page) = Normal true) as Hc
    by reflexivity.
  split; [exact Hc|].
  destruct (click_outcomes (click_on "#about") sample_page) as [H _].
  destruct (H Hc) as (link & h & top & H1 & H2 & _ & _ & H5 & _ & H7).
  exists link, h, top. split; [exact H1|]. split; [exact H2|].
  split; [exact H7 | exact H5].
Defined.

(** X20.  A click that is not inside a link to a fragment of the page
    is never taken over: when no element from the target up to the
    root is an [a] element whose [href] starts with "#", the listener
    returns without [preventDefault] and changes nothing.  Links to
    other pages keep their default behaviour. *)
Theorem other_links_untouched path s :
  (∀ n, n ∈ path → localName n = "a" →
        ∀ h, href n = Some h → String.prefix "#" h = false) →
  onClick path s = mkRun [] s (Normal false).
Proof.
  intros Hnone. apply no_anchor_falls_through. unfold closest.
  induction path as [|n path IH]; [done|]. cbn [List.find].
  assert (matches_anchor n = false) as ->.
  { unfold matches_anchor. destruct (String.eqb_spec (localName n) "a") as [Ht|_]; [|done].
    destruct (href n) as [h|] eqn:Hh; [|done]. cbn.
    apply (Hnone n); [by left | done | done]. }
  apply IH. intros m Hm. apply Hnone. by right.
Qed.

Lemma other_links_untouched_witness :
  (∀ n, n ∈ [mkNode "img" None; mkNode "a" (Some "/archives/")] →
        localName n = "a" →
        ∀ h, href n = Some h → String.prefix "#" h = false)
  ∧ onClick [mkNode "img" None; mkNode "a" (Some "/archives/")] sample_page
    = mkRun [] sample_page (Normal false).
Proof.
  assert (∀ n, n ∈ [mkNode "img" None; mkNode "a" (Some "/archives/")] →
        localName n = "a" →
        ∀ h, href n = Some h → String.prefix "#" h = false) as H.
  { intros n Hn Ht h Hh. apply elem_of_cons in Hn as [->|Hn]; [discriminate Ht|].
    apply list_elem_of_singleton in Hn as ->. cbn in Hh. by injection Hh as <-. }
  split; [exact H|].
  exact (other_links_untouched _ sample_page H).
Defined.

End SmoothScrollMore.
